(** * DragIT Buddy: a shallow embedding of [src/app.ts]

    The program is a single-page project board: a validated input form, a
    singleton observable store of projects, two list components subscribed to
    the store, and drag-and-drop handlers on the rendered rows and lists.

    Conventions of the embedding.
    - A JavaScript [number] is an IEEE 754 binary64 value: Rocq's primitive
      [float].  The comparisons [<], [>] and [===] on numbers are [PrimFloat.ltb]
      and [PrimFloat.eqb] (false on NaN).
    - A JavaScript string is a [string]; every character stands for one UTF-16
      code unit below 256, so that [String.length] is the [.length] property.
    - Objects that the program shares by reference ([Project] instances,
      [Project[]] arrays, the [ProjectState] instance) live in explicit heaps and
      are named by their allocation index.
    - Services of the platform that the program calls but does not define are
      parameters: [Number.prototype.toString] and the unary [+] on strings
      (Section variables), and the result of each [Math.random()] call (an
      argument of the operation that makes the call). *)

From Stdlib Require Import Floats ZArith Uint63 Ascii String.
From stdpp Require Import base option list strings.

Open Scope string_scope.
Open Scope list_scope.
Open Scope stdpp_scope.

Abbreviation number := float.

(** ** Strings *)

(** The code units below 256 that [String.prototype.trim] strips: TAB, LF, VT,
    FF, CR, SPACE and NBSP. *)
Definition isWhiteSpace (c : ascii) : bool :=
  bool_decide (N_of_ascii c ∈ [9; 10; 11; 12; 13; 32; 160]%N).

Fixpoint trimStart (s : string) : string :=
  match s with
  | EmptyString => EmptyString
  | String c s' => if isWhiteSpace c then trimStart s' else s
  end.

Fixpoint rev_onto (s acc : string) : string :=
  match s with
  | EmptyString => acc
  | String c s' => rev_onto s' (String c acc)
  end.

Definition trimEnd (s : string) : string :=
  rev_onto (trimStart (rev_onto s "")) "".

Definition trim (s : string) : string := trimEnd (trimStart s).

(** A string of white space only (the empty string among them). *)
Fixpoint blank (s : string) : bool :=
  match s with
  | EmptyString => true
  | String c s' => isWhiteSpace c && blank s'
  end.

(** [s.length] as a number.  Exact: a string length is below 2^53. *)
Definition length_number (s : string) : number :=
  PrimFloat.of_uint63 (Uint63.of_Z (Z.of_nat (String.length s))).

(** [a > b] on numbers is [b < a]. *)
Definition gtb (a b : number) : bool := PrimFloat.ltb b a.

(** ** Entity model *)

Inductive ProjectStatus : Set := Active | Finished.

#[global] Instance ProjectStatus_eq_dec : EqDecision ProjectStatus.
Proof. solve_decision. Defined.

(** [class Project]: five public fields set by the constructor. *)
Module Project.
Record t : Set := mk {
  id : string;
  title : string;
  description : string;
  people : number;
  status : ProjectStatus
}.
End Project.

(** ** Heaps

    A reference is the allocation index of an object in its heap.  [objs] holds
    the [Project] instances and [arrs] the [Project[]] arrays; an array is the
    list of the references it holds, so two arrays can share their elements. *)

Abbreviation ref := nat.

Record Heap : Set := mkHeap {
  objs : list Project.t;
  arrs : list (list ref)
}.

(** [new Project(...)]. *)
Definition allocProject (p : Project.t) (h : Heap) : ref * Heap :=
  (length (objs h), {| objs := objs h ++ [p]; arrs := arrs h |}).

(** An array literal, or the fresh array that [slice] and [filter] return. *)
Definition allocArray (xs : list ref) (h : Heap) : ref * Heap :=
  (length (arrs h), {| objs := objs h; arrs := arrs h ++ [xs] |}).

(** [a.push(x)]: the array [a] is extended in place. *)
Definition push (a x : ref) (h : Heap) : option Heap :=
  xs ← arrs h !! a;
  Some {| objs := objs h; arrs := <[a := xs ++ [x]]> (arrs h) |}.

(** [a.slice()]: a fresh array with the elements of [a]. *)
Definition slice (a : ref) (h : Heap) : option (ref * Heap) :=
  xs ← arrs h !! a;
  Some (allocArray xs h).

(** The projects an array holds, dereferenced. *)
Definition contents (a : ref) (h : Heap) : option (list Project.t) :=
  xs ← arrs h !! a;
  mapM (λ r, objs h !! r) xs.

(** ** State store

    [type Listener<T> = (items: T[]) => void].  A listener receives the
    reference of the array it is called with and acts on the heap and on the
    rest of the program's state [E]; it returns normally. *)
Definition Listener (E : Type) : Type := ref → Heap → E → Heap * E.

(** An instance of [class ProjectState extends State<Project>].  The
    [listeners] array never leaves the instance and is kept as a list;
    [projects] is the reference of the array the instance owns. *)
Record ProjectState (E : Type) : Type := mkProjectState {
  listeners : list (Listener E);
  projects : ref
}.
Arguments mkProjectState {E} _ _.
Arguments listeners {E} _.
Arguments projects {E} _.

(** The whole program state: the heaps, the [ProjectState] instances, the
    static field [ProjectState.instance], and the rest ([env]). *)
Record World (E : Type) : Type := mkWorld {
  heap : Heap;
  states : list (ProjectState E);
  instance : option ref;
  env : E
}.
Arguments mkWorld {E} _ _ _ _.
Arguments heap {E} _.
Arguments states {E} _.
Arguments instance {E} _.
Arguments env {E} _.

(** ** Validation rules *)

(** [value: string | number]. *)
Inductive Value : Set :=
  | VString (s : string)
  | VNumber (n : number).

(** The interface [Validation]; an absent optional field is [None]. *)
Module Validation.
Record t : Set := mk {
  value : Value;
  required : option bool;
  minLength : option number;
  maxLength : option number;
  min : option number;
  max : option number
}.
End Validation.

(** Truthiness of an optional boolean field: [if (v.required)]. *)
Definition truthy (b : option bool) : bool := default false b.

(** ** Platform objects: events and the drag data store *)

(** A [DataTransfer]: the items of the drag data store in insertion order, as
    (format, data) pairs, and the [effectAllowed] attribute. *)
Module DataTransfer.
Record t : Set := mk {
  items : list (string * string);
  effectAllowed : string
}.
End DataTransfer.

(** [dt.setData(format, data)]: the item of that format is replaced, the new
    one going last. *)
Definition setData (format data : string) (dt : DataTransfer.t) : DataTransfer.t :=
  {| DataTransfer.items :=
       filter (λ it, it.1 ≠ format) (DataTransfer.items dt) ++ [(format, data)];
     DataTransfer.effectAllowed := DataTransfer.effectAllowed dt |}.

(** [dt.getData(format)]: the data of that format, or the empty string. *)
Definition getData (format : string) (dt : DataTransfer.t) : string :=
  match list_find (λ it, it.1 = format) (DataTransfer.items dt) with
  | Some (_, it) => it.2
  | None => ""
  end.

(** [dt.types]. *)
Definition types (dt : DataTransfer.t) : list string := (DataTransfer.items dt).*1.

Definition set_effectAllowed (e : string) (dt : DataTransfer.t) : DataTransfer.t :=
  {| DataTransfer.items := DataTransfer.items dt; DataTransfer.effectAllowed := e |}.

(** A [DragEvent]; [dataTransfer] is [DataTransfer | null]. *)
Module DragEvent.
Record t : Set := mk {
  dataTransfer : option DataTransfer.t;
  defaultPrevented : bool
}.
End DragEvent.

(** An [Event] (the form's submit event). *)
Module Event.
Record t : Set := mk { defaultPrevented : bool }.
End Event.

(** ** Components *)

(** The [type] of a [ProjectLists]: ["active" | "finished"]. *)
Inductive ListType : Set := active | finished.

#[global] Instance ListType_eq_dec : EqDecision ListType.
Proof. solve_decision. Defined.

Definition typeName (t : ListType) : string :=
  match t with active => "active" | finished => "finished" end.

(** A [ProjectItem]: the project it shows and its [li] element (the element's
    id and the text of its [h2], [h3] and [p]). *)
Module ProjectItem.
Record t : Set := mk {
  project : ref;
  elementId : string;
  h2 : string;
  h3 : string;
  p : string
}.
End ProjectItem.

(** A [ProjectLists]: its type, the array [assignedProjects], and its [ul]
    element (id, class list, and the rows rendered into it). *)
Module ProjectLists.
Record t : Set := mk {
  type : ListType;
  assignedProjects : ref;
  ulId : string;
  classList : list string;
  children : list ProjectItem.t
}.
End ProjectLists.

(** A [ProjectInput]: the [value] of each of its three input elements. *)
Module ProjectInput.
Record t : Set := mk {
  titleInputElement : string;
  descriptionInputElement : string;
  peopleInputElement : string
}.
End ProjectInput.

(** The rest of the program state: the top-level constants of the module, the
    messages shown by [alert], and the lines written by [console.log]. *)
Record App : Set := mkApp {
  projectState : ref;
  myForm : ProjectInput.t;
  activeProjectLists : ProjectLists.t;
  finishedProjectLists : ProjectLists.t;
  alerts : list string;
  console : list (list Value)
}.

Definition getList (t : ListType) (app : App) : ProjectLists.t :=
  match t with
  | active => activeProjectLists app
  | finished => finishedProjectLists app
  end.

Definition setList (t : ListType) (l : ProjectLists.t) (app : App) : App :=
  match t with
  | active =>
      {| projectState := projectState app; myForm := myForm app;
         activeProjectLists := l; finishedProjectLists := finishedProjectLists app;
         alerts := alerts app; console := console app |}
  | finished =>
      {| projectState := projectState app; myForm := myForm app;
         activeProjectLists := activeProjectLists app; finishedProjectLists := l;
         alerts := alerts app; console := console app |}
  end.

Definition setForm (f : ProjectInput.t) (app : App) : App :=
  {| projectState := projectState app; myForm := f;
     activeProjectLists := activeProjectLists app;
     finishedProjectLists := finishedProjectLists app;
     alerts := alerts app; console := console app |}.

(** [alert(msg)]. *)
Definition alert (msg : string) (app : App) : App :=
  {| projectState := projectState app; myForm := myForm app;
     activeProjectLists := activeProjectLists app;
     finishedProjectLists := finishedProjectLists app;
     alerts := alerts app ++ [msg]; console := console app |}.

(** [console.log(v1, ..., vn)]. *)
Definition console_log (vs : list Value) (app : App) : App :=
  {| projectState := projectState app; myForm := myForm app;
     activeProjectLists := activeProjectLists app;
     finishedProjectLists := finishedProjectLists app;
     alerts := alerts app; console := console app ++ [vs] |}.

(** [classList.add(c)] and [classList.remove(c)] on an ordered token set. *)
Definition classList_add (c : string) (l : list string) : list string :=
  if bool_decide (c ∈ l) then l else l ++ [c].

Definition classList_remove (c : string) (l : list string) : list string :=
  filter (λ x, x ≠ c) l.

Definition set_heap {E} (h : Heap) (w : World E) : World E :=
  {| heap := h; states := states w; instance := instance w; env := env w |}.

Definition set_env {E} (e : E) (w : World E) : World E :=
  {| heap := heap w; states := states w; instance := instance w; env := e |}.

Section Program.

(** [Number.prototype.toString]. *)
Variable numberToString : number → string.
(** The unary plus applied to a string, [+s]. *)
Variable toNumber : string → number.

(** ** Validator *)

(** [value.toString()]. *)
Definition toString (v : Value) : string :=
  match v with
  | VString s => s
  | VNumber n => numberToString n
  end.

(** [validateForm], one conditional after the other as in the source.  A
    length or range check applies only when its bound is present and the
    value has the matching run-time type. *)
Definition validateForm (validationInput : Validation.t) : bool :=
  let isValid := true in
  let isValid :=
    if truthy (Validation.required validationInput)
    then isValid &&
         negb (String.length (trim (toString (Validation.value validationInput))) =? 0)%nat
    else isValid in
  let isValid :=
    match Validation.minLength validationInput, Validation.value validationInput with
    | Some minLength, VString s => isValid && gtb (length_number s) minLength
    | _, _ => isValid
    end in
  let isValid :=
    match Validation.maxLength validationInput, Validation.value validationInput with
    | Some maxLength, VString s => isValid && gtb (length_number s) maxLength
    | _, _ => isValid
    end in
  let isValid :=
    match Validation.min validationInput, Validation.value validationInput with
    | Some min, VNumber n => isValid && gtb n min
    | _, _ => isValid
    end in
  let isValid :=
    match Validation.max validationInput, Validation.value validationInput with
    | Some max, VNumber n => isValid && PrimFloat.ltb n max
    | _, _ => isValid
    end in
  isValid.

(** ** The store's operations *)

Section Store.

Context {E : Type}.

(** [new ProjectState()]: the field initialisers [listeners = []] and
    [projects = []]. *)
Definition newProjectState (h : Heap) : ProjectState E * Heap :=
  let '(a, h') := allocArray [] h in
  ({| listeners := []; projects := a |}, h').

(** [ProjectState.getInstance()]. *)
Definition getInstance (w : World E) : ref * World E :=
  match instance w with
  | Some r => (r, w)
  | None =>
      let '(s, h) := newProjectState (heap w) in
      let r := length (states w) in
      (r, {| heap := h; states := states w ++ [s]; instance := Some r; env := env w |})
  end.

(** [this.addListener(listenerFunction)]. *)
Definition addListener (this : ref) (listenerFunction : Listener E) (w : World E)
  : option (World E) :=
  s ← states w !! this;
  Some {| heap := heap w;
          states := <[this := {| listeners := listeners s ++ [listenerFunction];
                                 projects := projects s |}]> (states w);
          instance := instance w;
          env := env w |}.

(** The loop [for (const listenerFunction of this.listeners)
    listenerFunction(this.projects.slice())]: [a] is [this.projects], read
    again from the heap at every turn. *)
Fixpoint notify (ls : list (Listener E)) (a : ref) (h : Heap) (e : E) : option (Heap * E) :=
  match ls with
  | [] => Some (h, e)
  | listenerFunction :: ls' =>
      '(snapshot, h1) ← slice a h;
      let '(h2, e2) := listenerFunction snapshot h1 e in
      notify ls' a h2 e2
  end.

(** [this.addProject(title, description, numOfPeople)]; [random] is the
    value its call of [Math.random()] returns. *)
Definition addProject (this : ref) (random : number) (title description : string)
    (numOfPeople : number) (w : World E) : option (World E) :=
  s ← states w !! this;
  let newProject :=
    Project.mk (numberToString random) title description numOfPeople Active in
  let '(p, h1) := allocProject newProject (heap w) in
  h2 ← push (projects s) p h1;
  '(h3, e3) ← notify (listeners s) (projects s) h2 (env w);
  Some {| heap := h3; states := states w; instance := instance w; env := e3 |}.

(** The projects of the store [this], as a later operation reads them. *)
Definition storeProjects (this : ref) (w : World E) : option (list Project.t) :=
  s ← states w !! this;
  contents (projects s) (heap w).

End Store.

(** ** ProjectItem *)

(** The getter [persons]. *)
Definition persons (p : Project.t) : string :=
  if PrimFloat.eqb (Project.people p) 1 then "1 person"
  else numberToString (Project.people p) +:+ " persons".

(** [new ProjectItem(hostId, project)]: the constructor gives the cloned [li]
    the id [project.id] and [renderContent] fills in its three texts. *)
Definition newProjectItem (project : ref) (h : Heap) : option ProjectItem.t :=
  p ← objs h !! project;
  Some {| ProjectItem.project := project;
          ProjectItem.elementId := Project.id p;
          ProjectItem.h2 := Project.title p;
          ProjectItem.h3 := persons p +:+ " assigned";
          ProjectItem.p := Project.description p |}.

(** [dragStartHandler(event)].  The [!] on a null [dataTransfer] is a
    [TypeError]: [None]. *)
Definition dragStartHandler (this : ProjectItem.t) (event : DragEvent.t) (h : Heap)
  : option DragEvent.t :=
  dt ← DragEvent.dataTransfer event;
  p ← objs h !! ProjectItem.project this;
  Some {| DragEvent.dataTransfer :=
            Some (set_effectAllowed "move" (setData "text/plain" (Project.id p) dt));
          DragEvent.defaultPrevented := DragEvent.defaultPrevented event |}.

(** [dragEndHandler(_)]. *)
Definition dragEndHandler (w : World App) : World App :=
  set_env (console_log [VString "DragEnd"] (env w)) w.

(** ** ProjectLists *)

Definition set_rows (rows : list ProjectItem.t) (l : ProjectLists.t) : ProjectLists.t :=
  {| ProjectLists.type := ProjectLists.type l;
     ProjectLists.assignedProjects := ProjectLists.assignedProjects l;
     ProjectLists.ulId := ProjectLists.ulId l;
     ProjectLists.classList := ProjectLists.classList l;
     ProjectLists.children := rows |}.

Definition set_assignedProjects (a : ref) (l : ProjectLists.t) : ProjectLists.t :=
  {| ProjectLists.type := ProjectLists.type l;
     ProjectLists.assignedProjects := a;
     ProjectLists.ulId := ProjectLists.ulId l;
     ProjectLists.classList := ProjectLists.classList l;
     ProjectLists.children := ProjectLists.children l |}.

Definition set_classList (c : list string) (l : ProjectLists.t) : ProjectLists.t :=
  {| ProjectLists.type := ProjectLists.type l;
     ProjectLists.assignedProjects := ProjectLists.assignedProjects l;
     ProjectLists.ulId := ProjectLists.ulId l;
     ProjectLists.classList := c;
     ProjectLists.children := ProjectLists.children l |}.

Definition set_ulId (i : string) (l : ProjectLists.t) : ProjectLists.t :=
  {| ProjectLists.type := ProjectLists.type l;
     ProjectLists.assignedProjects := ProjectLists.assignedProjects l;
     ProjectLists.ulId := i;
     ProjectLists.classList := ProjectLists.classList l;
     ProjectLists.children := ProjectLists.children l |}.

(** [renderProjects()]: the [ul] is emptied, then one [ProjectItem] is
    appended per assigned project.  The [ul] is the component's own: the id
    that [renderContent] gave it is the one both lookups use. *)
Definition renderProjects (this : ProjectLists.t) (h : Heap) : ProjectLists.t :=
  set_rows
    (omap (λ projectItems, newProjectItem projectItems h)
          (default [] (arrs h !! ProjectLists.assignedProjects this)))
    this.

(** The status a list of the given type keeps. *)
Definition keeps (t : ListType) : ProjectStatus :=
  match t with active => Active | finished => Finished end.

(** The listener that [configure] registers for the list in slot [t]:
    [projects.filter(...)] makes a fresh array, which becomes
    [assignedProjects], and the rows are rendered again. *)
Definition listListener (t : ListType) : Listener App := λ projects h app,
  let this := getList t app in
  let '(filteredProjects, h1) :=
    allocArray
      (filter (λ item, Project.status <$> objs h !! item = Some (keeps (ProjectLists.type this)))
              (default [] (arrs h !! projects)))
      h in
  (h1, setList t (renderProjects (set_assignedProjects filteredProjects this) h1) app).

(** [dragOverHandler(event)] of the list in slot [t]. *)
Definition dragOverHandler (t : ListType) (event : DragEvent.t) (w : World App)
  : DragEvent.t * World App :=
  match DragEvent.dataTransfer event with
  | Some dt =>
      if bool_decide (types dt !! 0 = Some "text/plain") then
        let this := getList t (env w) in
        ({| DragEvent.dataTransfer := DragEvent.dataTransfer event;
            DragEvent.defaultPrevented := true |},
         set_env (setList t (set_classList (classList_add "droppable" (ProjectLists.classList this)) this)
                           (env w)) w)
      else (event, w)
  | None => (event, w)
  end.

(** [dropHandler(event)]: the transferred text is logged. *)
Definition dropHandler (event : DragEvent.t) (w : World App) : option (World App) :=
  dt ← DragEvent.dataTransfer event;
  Some (set_env (console_log [VString (getData "text/plain" dt)] (env w)) w).

(** [dragLeaveHandler(_)] of the list in slot [t]. *)
Definition dragLeaveHandler (t : ListType) (w : World App) : World App :=
  let this := getList t (env w) in
  set_env (setList t (set_classList (classList_remove "droppable" (ProjectLists.classList this)) this)
                     (env w)) w.

(** ** ProjectInput *)

(** The three rules that [fetchUserInput] builds from the entered values. *)
Definition titleValidationInput (enterTitle : string) : Validation.t :=
  {| Validation.value := VString enterTitle; Validation.required := Some true;
     Validation.minLength := None; Validation.maxLength := None;
     Validation.min := None; Validation.max := None |}.

Definition descriptionValidationInput (enterDescription : string) : Validation.t :=
  {| Validation.value := VString enterDescription; Validation.required := Some true;
     Validation.minLength := Some 5%float; Validation.maxLength := None;
     Validation.min := None; Validation.max := None |}.

Definition peopleValidationInput (enterPeople : string) : Validation.t :=
  {| Validation.value := VNumber (toNumber enterPeople); Validation.required := Some true;
     Validation.minLength := None; Validation.maxLength := None;
     Validation.min := Some 0%float; Validation.max := Some 5%float |}.

(** [fetchUserInput()]: the tuple, or nothing after the alert. *)
Definition fetchUserInput (w : World App) : option (string * string * number) * World App :=
  let this := myForm (env w) in
  let enterTitle := ProjectInput.titleInputElement this in
  let enterDescription := ProjectInput.descriptionInputElement this in
  let enterPeople := ProjectInput.peopleInputElement this in
  if negb (validateForm (titleValidationInput enterTitle))
     || negb (validateForm (descriptionValidationInput enterDescription))
     || negb (validateForm (peopleValidationInput enterPeople))
  then (None, set_env (alert "please provide all required information " (env w)) w)
  else (Some (enterTitle, enterDescription, toNumber enterPeople), w).

(** [clearInput()]. *)
Definition clearInput (w : World App) : World App :=
  set_env (setForm (ProjectInput.mk "" "" "") (env w)) w.

(** [submitHandler(event)]; [random] is what [Math.random()] returns if
    [addProject] is reached. *)
Definition submitHandler (event : Event.t) (random : number) (w : World App)
  : option (Event.t * World App) :=
  let event := {| Event.defaultPrevented := true |} in
  let '(userInput, w1) := fetchUserInput w in
  match userInput with
  | Some (title, desc, people) =>
      let w2 := set_env (console_log [VString title; VString desc; VNumber people] (env w1)) w1 in
      w3 ← addProject (projectState (env w2)) random title desc people w2;
      Some (event, clearInput w3)
  | None => Some (event, w1)
  end.

(** ** The module's top level *)

(** The state before the module runs: empty heaps, no instance.  The slots of
    the three components hold blanks that their constructors overwrite. *)
Definition blankList (t : ListType) : ProjectLists.t :=
  {| ProjectLists.type := t; ProjectLists.assignedProjects := 0;
     ProjectLists.ulId := ""; ProjectLists.classList := [];
     ProjectLists.children := [] |}.

Definition world0 : World App :=
  {| heap := {| objs := []; arrs := [] |};
     states := [];
     instance := None;
     env := {| projectState := 0;
               myForm := ProjectInput.mk "" "" "";
               activeProjectLists := blankList active;
               finishedProjectLists := blankList finished;
               alerts := [];
               console := [] |} |}.

Definition set_projectState (r : ref) (app : App) : App :=
  {| projectState := r; myForm := myForm app;
     activeProjectLists := activeProjectLists app;
     finishedProjectLists := finishedProjectLists app;
     alerts := alerts app; console := console app |}.

(** [new ProjectInput()]: the three inputs of the cloned form are empty. *)
Definition newProjectInput (w : World App) : World App :=
  set_env (setForm (ProjectInput.mk "" "" "") (env w)) w.

(** [new ProjectLists(type)], stored in the slot of that type: the field
    initialiser [assignedProjects = []], then [configure()] registers the
    listener and [renderContent()] names the [ul]. *)
Definition newProjectLists (t : ListType) (w : World App) : option (World App) :=
  let '(a, h) := allocArray [] (heap w) in
  let this := set_assignedProjects a (blankList t) in
  let w1 := set_env (setList t this (env w)) (set_heap h w) in
  w2 ← addListener (projectState (env w1)) (listListener t) w1;
  let listId := typeName t +:+ "-project-list" in
  Some (set_env (setList t (set_ulId listId (getList t (env w2))) (env w2)) w2).

(** The four top-level statements of the module. *)
Definition boot : option (World App) :=
  let '(r, w1) := getInstance world0 in
  let w2 := set_env (set_projectState r (env w1)) w1 in
  let w3 := newProjectInput w2 in
  w4 ← newProjectLists active w3;
  newProjectLists finished w4.

(** ** The event loop *)

Inductive Field : Set := FTitle | FDescription | FPeople.

(** What can happen after the module has run: the user edits an input; the
    form is submitted; a drag event reaches row [i] of a list, or a list. *)
Inductive Action : Set :=
  | Edit (f : Field) (s : string)
  | Submit (event : Event.t) (random : number)
  | DragStart (t : ListType) (i : nat) (event : DragEvent.t)
  | DragEnd (t : ListType) (i : nat) (event : DragEvent.t)
  | DragOver (t : ListType) (event : DragEvent.t)
  | DragLeave (t : ListType) (event : DragEvent.t)
  | Drop (t : ListType) (event : DragEvent.t).

Definition edit (f : Field) (s : string) (form : ProjectInput.t) : ProjectInput.t :=
  match f with
  | FTitle =>
      ProjectInput.mk s (ProjectInput.descriptionInputElement form)
                      (ProjectInput.peopleInputElement form)
  | FDescription =>
      ProjectInput.mk (ProjectInput.titleInputElement form) s
                      (ProjectInput.peopleInputElement form)
  | FPeople =>
      ProjectInput.mk (ProjectInput.titleInputElement form)
                      (ProjectInput.descriptionInputElement form) s
  end.

(** One turn of the event loop.  A handler that raises before it has changed
    anything ([dragStartHandler], [dropHandler]) leaves the state as it was;
    the event object a handler has marked is dropped after the turn. *)
Definition step (a : Action) (w : World App) : option (World App) :=
  match a with
  | Edit f s => Some (set_env (setForm (edit f s (myForm (env w))) (env w)) w)
  | Submit event random => snd <$> submitHandler event random w
  | DragStart t i event => Some w
  | DragEnd t i event =>
      match ProjectLists.children (getList t (env w)) !! i with
      | Some _ => Some (dragEndHandler w)
      | None => Some w
      end
  | DragOver t event => Some (dragOverHandler t event w).2
  | DragLeave t event => Some (dragLeaveHandler t w)
  | Drop t event => Some (default w (dropHandler event w))
  end.

Fixpoint run (acts : list Action) (w : World App) : option (World App) :=
  match acts with
  | [] => Some w
  | a :: acts' => w' ← step a w; run acts' w'
  end.

(** The values [Math.random()] returned during a run, in order: one per
    submission that reached [addProject]. *)
Fixpoint draws (acts : list Action) (w : World App) : list number :=
  match acts with
  | [] => []
  | a :: acts' =>
      let here :=
        match a with
        | Submit _ random =>
            match (fetchUserInput w).1 with Some _ => [random] | None => [] end
        | _ => []
        end in
      match step a w with
      | Some w' => here ++ draws acts' w'
      | None => here
      end
  end.

(** ** Specifications *)

Section StoreSpec.

Context {E : Type}.

(** A listener that changes no array other than the one it was called with
    (it may change that one, allocate arrays, and act on [E]). *)
Definition keeps_other_arrays (l : Listener E) : Prop :=
  ∀ snapshot h e a xs,
    a ≠ snapshot → arrs h !! a = Some xs → arrs (l snapshot h e).1 !! a = Some xs.

(** A listener that changes no [Project] instance. *)
Definition keeps_objects (l : Listener E) : Prop :=
  ∀ snapshot h e r p, objs h !! r = Some p → objs (l snapshot h e).1 !! r = Some p.

(** A notification round, as the specification words it: every listener is
    called once, in registration order, each with a fresh array that holds
    the elements [xs]; the state one listener leaves is the state the next one
    starts from. *)
Inductive notified (xs : list ref) : list (Listener E) → Heap * E → Heap * E → Prop :=
  | notified_nil s : notified xs [] s s
  | notified_cons l ls h e s' :
      notified xs ls (l (length (arrs h)) {| objs := objs h; arrs := arrs h ++ [xs] |} e) s' →
      notified xs (l :: ls) (h, e) s'.

(** The operations a client can apply to the store class. *)
Inductive StoreOp : Type :=
  | OpGetInstance
  | OpAddListener (this : ref) (l : Listener E)
  | OpAddProject (this : ref) (random : number) (title description : string)
      (numOfPeople : number).

Definition execOp (op : StoreOp) (w : World E) : option (World E) :=
  match op with
  | OpGetInstance => Some (getInstance w).2
  | OpAddListener this l => addListener this l w
  | OpAddProject this random title description numOfPeople =>
      addProject this random title description numOfPeople w
  end.

Fixpoint execOps (ops : list StoreOp) (w : World E) : option (World E) :=
  match ops with
  | [] => Some w
  | op :: ops' => w' ← execOp op w; execOps ops' w'
  end.

End StoreSpec.

(** The three validations of a submission pass. *)
Definition allValid (form : ProjectInput.t) : bool :=
  validateForm (titleValidationInput (ProjectInput.titleInputElement form))
  && validateForm (descriptionValidationInput (ProjectInput.descriptionInputElement form))
  && validateForm (peopleValidationInput (ProjectInput.peopleInputElement form)).

(** The row that shows the project [p], held at reference [r]. *)
Definition rowOf (r : ref) (p : Project.t) : ProjectItem.t :=
  {| ProjectItem.project := r;
     ProjectItem.elementId := Project.id p;
     ProjectItem.h2 := Project.title p;
     ProjectItem.h3 := persons p +:+ " assigned";
     ProjectItem.p := Project.description p |}.

(** What the three rules of the form leave true of an accepted triple. *)
Definition validated (p : Project.t) : Prop :=
  blank (Project.title p) = false ∧
  blank (Project.description p) = false ∧
  (5 < String.length (Project.description p))%nat ∧
  PrimFloat.ltb 0 (Project.people p) = true ∧
  PrimFloat.ltb (Project.people p) 5 = true.

(** The number of submissions among the events of a run. *)
Definition isSubmit (a : Action) : bool :=
  match a with Submit _ _ => true | _ => false end.

Definition submissions (acts : list Action) : nat :=
  length (filter (λ a, isSubmit a) acts).

(** The states the program can be in: those a run of the event loop reaches
    from the state the module's top level leaves. *)
Definition reachable (w : World App) : Prop :=
  ∃ acts w0, boot = Some w0 ∧ run acts w0 = Some w.

(** The shape every reachable state has. *)
Record Inv (w : World App) : Prop := {
  inv_projectState : projectState (env w) = 0;
  inv_instance : instance w = Some 0;
  inv_states :
    states w = [ {| listeners := [listListener active; listListener finished];
                    projects := 0 |} ];
  inv_projects : arrs (heap w) !! 0 = Some (seq 0 (length (objs (heap w))));
  inv_status : Forall (λ p, Project.status p = Active) (objs (heap w));
  inv_type : ∀ t, ProjectLists.type (getList t (env w)) = t;
  inv_assigned : ∀ t,
    arrs (heap w) !! ProjectLists.assignedProjects (getList t (env w)) =
    Some (match t with active => seq 0 (length (objs (heap w))) | finished => [] end);
  inv_rows : ∀ t,
    Forall (λ row, newProjectItem (ProjectItem.project row) (heap w) = Some row)
           (ProjectLists.children (getList t (env w)));
  inv_finished_rows : ProjectLists.children (finishedProjectLists (env w)) = []
}.


(** * Theorems *)

(** ** Validator *)

Lemma ltb_irrefl (x : number) : PrimFloat.ltb x x = false.
Proof.
  rewrite FloatAxioms.ltb_spec. unfold SFltb.
  destruct (Prim2SF x) as [s|s| |s m e]; simpl; try reflexivity.
  - destruct s; reflexivity.
  - destruct s; rewrite Z.compare_refl, Pos.compare_cont_refl; reflexivity.
Qed.

(** [validateForm] on a number and on a string, as one conjunction of the
    checks that apply. *)
Lemma validateForm_number v req minL maxL lo hi :
  validateForm {| Validation.value := VNumber v; Validation.required := req;
                  Validation.minLength := minL; Validation.maxLength := maxL;
                  Validation.min := lo; Validation.max := hi |}
  = (if truthy req then negb (String.length (trim (numberToString v)) =? 0)%nat else true)
    && (match lo with Some m => gtb v m | None => true end)
    && (match hi with Some m => PrimFloat.ltb v m | None => true end).
Proof.
  unfold validateForm; simpl.
  destruct (truthy req), minL, maxL, lo, hi; simpl; rewrite ?andb_true_r; reflexivity.
Qed.

Lemma validateForm_string s req minL maxL lo hi :
  validateForm {| Validation.value := VString s; Validation.required := req;
                  Validation.minLength := minL; Validation.maxLength := maxL;
                  Validation.min := lo; Validation.max := hi |}
  = (if truthy req then negb (String.length (trim s) =? 0)%nat else true)
    && (match minL with Some k => gtb (length_number s) k | None => true end)
    && (match maxL with Some k => gtb (length_number s) k | None => true end).
Proof.
  unfold validateForm; simpl.
  destruct (truthy req), minL, maxL, lo, hi; simpl; rewrite ?andb_true_r; reflexivity.
Qed.

(** C3.  With both [min] and [max] present, a number passes exactly when the
    [required] check passes, [min < v] and [v < max], both strict: a value
    equal to either bound is rejected, and so is 5 against the bounds 0 and
    5. *)
Theorem validate_min_max_strict :
  (∀ v lo hi req minL maxL,
     validateForm {| Validation.value := VNumber v; Validation.required := req;
                     Validation.minLength := minL; Validation.maxLength := maxL;
                     Validation.min := Some lo; Validation.max := Some hi |}
     = (if truthy req then negb (String.length (trim (numberToString v)) =? 0)%nat else true)
       && PrimFloat.ltb lo v && PrimFloat.ltb v hi) ∧
  (∀ b other req minL maxL,
     validateForm {| Validation.value := VNumber b; Validation.required := req;
                     Validation.minLength := minL; Validation.maxLength := maxL;
                     Validation.min := Some b; Validation.max := Some other |} = false ∧
     validateForm {| Validation.value := VNumber b; Validation.required := req;
                     Validation.minLength := minL; Validation.maxLength := maxL;
                     Validation.min := Some other; Validation.max := Some b |} = false) ∧
  validateForm {| Validation.value := VNumber 5%float; Validation.required := None;
                  Validation.minLength := None; Validation.maxLength := None;
                  Validation.min := Some 0%float; Validation.max := Some 5%float |} = false.
Proof.
  split; [|split].
  - intros. apply validateForm_number.
  - intros. rewrite !validateForm_number. unfold gtb. rewrite ltb_irrefl.
    split; [rewrite andb_false_r | rewrite andb_false_r]; reflexivity.
  - reflexivity.
Qed.

(** C4.  A string passes the [maxLength] check only when its length is
    strictly greater than the bound, by the same comparison as the
    [minLength] check: against the bound 5, a string of length 3 is rejected
    and one of length 6 accepted. *)
Theorem validate_maxLength_inverted :
  (∀ s req minL maxL lo hi,
     validateForm {| Validation.value := VString s; Validation.required := req;
                     Validation.minLength := minL; Validation.maxLength := maxL;
                     Validation.min := lo; Validation.max := hi |} = true →
     (∀ k, maxL = Some k → PrimFloat.ltb k (length_number s) = true) ∧
     (∀ k, minL = Some k → PrimFloat.ltb k (length_number s) = true)) ∧
  (∀ s k,
     validateForm {| Validation.value := VString s; Validation.required := None;
                     Validation.minLength := None; Validation.maxLength := Some k;
                     Validation.min := None; Validation.max := None |}
     = validateForm {| Validation.value := VString s; Validation.required := None;
                       Validation.minLength := Some k; Validation.maxLength := None;
                       Validation.min := None; Validation.max := None |}) ∧
  validateForm {| Validation.value := VString "abc"; Validation.required := None;
                  Validation.minLength := None; Validation.maxLength := Some 5%float;
                  Validation.min := None; Validation.max := None |} = false ∧
  validateForm {| Validation.value := VString "abcdef"; Validation.required := None;
                  Validation.minLength := None; Validation.maxLength := Some 5%float;
                  Validation.min := None; Validation.max := None |} = true.
Proof.
  split; [|split; [|split]].
  - intros s req minL maxL lo hi Hv. rewrite validateForm_string in Hv.
    apply andb_true_iff in Hv as [Hv Hmax]. apply andb_true_iff in Hv as [_ Hmin].
    split; intros k ->; assumption.
  - intros. rewrite !validateForm_string. simpl. rewrite andb_true_r. reflexivity.
  - reflexivity.
  - reflexivity.
Qed.

(** ** The store, for any listeners *)

Section StoreFacts.

Context {E : Type}.
Implicit Types (w : World E) (h : Heap) (e : E) (ls : list (Listener E)).

Lemma slice_Some a h xs :
  arrs h !! a = Some xs →
  slice a h = Some (length (arrs h), {| objs := objs h; arrs := arrs h ++ [xs] |}).
Proof. intros Ha. unfold slice. rewrite Ha. reflexivity. Qed.

Lemma push_Some a x h xs :
  arrs h !! a = Some xs →
  push a x h = Some {| objs := objs h; arrs := <[a := xs ++ [x]]> (arrs h) |}.
Proof. intros Ha. unfold push. rewrite Ha. reflexivity. Qed.

(** The loop of [addProject] is a notification round with the elements the
    store's array holds, and leaves that array as it was. *)
Lemma notify_notified ls a h e xs :
  arrs h !! a = Some xs →
  Forall keeps_other_arrays ls →
  ∃ s', notify ls a h e = Some s' ∧ notified xs ls (h, e) s' ∧ arrs s'.1 !! a = Some xs.
Proof.
  intros Ha Hls. revert h e Ha.
  induction Hls as [|l ls Hl _ IH]; intros h e Ha.
  - exists (h, e). repeat split; [constructor | exact Ha].
  - simpl. rewrite (slice_Some _ _ _ Ha). simpl.
    pose proof (lookup_lt_Some _ _ _ Ha) as Hlt.
    assert (Hkeep :
      arrs (l (length (arrs h)) {| objs := objs h; arrs := arrs h ++ [xs] |} e).1 !! a
      = Some xs).
    { apply Hl; [lia|]. simpl. rewrite lookup_app_l by exact Hlt. exact Ha. }
    destruct (l (length (arrs h)) {| objs := objs h; arrs := arrs h ++ [xs] |} e)
      as [h2 e2] eqn:Hcall.
    destruct (IH h2 e2 Hkeep) as (s' & Hn & Hr & Hs').
    exists s'. repeat split; [exact Hn | | exact Hs'].
    constructor. rewrite Hcall. exact Hr.
Qed.

Lemma notified_nil_inv xs (s s' : Heap * E) : notified xs [] s s' → s' = s.
Proof. inversion 1; reflexivity. Qed.

Lemma notified_cons_inv xs (l : Listener E) ls h e s' :
  notified xs (l :: ls) (h, e) s' →
  notified xs ls (l (length (arrs h)) {| objs := objs h; arrs := arrs h ++ [xs] |} e) s'.
Proof. inversion 1; assumption. Qed.

Lemma notified_app xs ls1 ls2 s1 s3 :
  notified xs (ls1 ++ ls2) s1 s3 ↔ ∃ s2, notified xs ls1 s1 s2 ∧ notified xs ls2 s2 s3.
Proof.
  revert s1. induction ls1 as [|l ls1 IH]; intros s1; simpl.
  - split.
    + intros H. exists s1. split; [constructor | exact H].
    + intros (s2 & H1 & H2). inversion H1; subst. exact H2.
  - split.
    + intros H. inversion H as [|? ? h e ? Hrest]; subst.
      apply IH in Hrest as (s2 & H1 & H2).
      exists s2. split; [constructor; exact H1 | exact H2].
    + intros (s2 & H1 & H2). inversion H1 as [|? ? h e ? Hrest]; subst.
      constructor. apply IH. exists s2. split; assumption.
Qed.

Lemma notified_keeps_objects xs ls s s' r p :
  Forall keeps_objects ls →
  notified xs ls s s' →
  objs s.1 !! r = Some p → objs s'.1 !! r = Some p.
Proof.
  intros Hls Hn. induction Hn as [|l ls h e s' _ IH]; [tauto|].
  inversion Hls as [|? ? Hl Hls']; subst. simpl. intros Hr.
  apply (IH Hls'). apply Hl. simpl. exact Hr.
Qed.

(** What [addProject] does, for listeners that leave other arrays alone. *)
Lemma addProject_spec this s xs random title description numOfPeople w :
  states w !! this = Some s →
  arrs (heap w) !! projects s = Some xs →
  Forall keeps_other_arrays (listeners s) →
  let newProject :=
    Project.mk (numberToString random) title description numOfPeople Active in
  let p := length (objs (heap w)) in
  let h2 := {| objs := objs (heap w) ++ [newProject];
               arrs := <[projects s := xs ++ [p]]> (arrs (heap w)) |} in
  ∃ w', addProject this random title description numOfPeople w = Some w' ∧
        states w' = states w ∧ instance w' = instance w ∧
        arrs (heap w') !! projects s = Some (xs ++ [p]) ∧
        notified (xs ++ [p]) (listeners s) (h2, env w) (heap w', env w').
Proof.
  intros Hs Ha Hls newProject p h2.
  assert (Ha2 : arrs h2 !! projects s = Some (xs ++ [p])).
  { simpl. apply list_lookup_insert_eq. eapply lookup_lt_Some, Ha. }
  destruct (notify_notified (listeners s) (projects s) h2 (env w) _ Ha2 Hls)
    as ([h3 e3] & Hn & Hr & Hkeep).
  exists {| heap := h3; states := states w; instance := instance w; env := e3 |}.
  repeat split; try assumption.
  unfold addProject. rewrite Hs. simpl.
  rewrite (push_Some _ _ _ xs) by exact Ha. simpl.
  fold newProject p h2. rewrite Hn. reflexivity.
Qed.

Lemma contents_Some a h ps :
  contents a h = Some ps ↔
  ∃ xs, arrs h !! a = Some xs ∧ Forall2 (λ r q, objs h !! r = Some q) xs ps.
Proof.
  unfold contents. split.
  - destruct (arrs h !! a) as [xs|]; simpl; [|discriminate].
    intros H. exists xs. split; [reflexivity|]. by apply mapM_Some.
  - intros (xs & -> & H). simpl. by apply mapM_Some.
Qed.

End StoreFacts.

Section StoreClaims.

Context {E : Type}.
Implicit Types (w : World E) (h : Heap) (e : E) (ls : list (Listener E)).

Lemma getInstance_instance w : instance (getInstance w).2 = Some (getInstance w).1.
Proof. unfold getInstance. destruct (instance w) eqn:Hi; simpl; [exact Hi | reflexivity]. Qed.

Lemma getInstance_again w r : instance w = Some r → getInstance w = (r, w).
Proof. intros Hi. unfold getInstance. rewrite Hi. reflexivity. Qed.

Lemma addListener_instance this l w w' :
  addListener this l w = Some w' → instance w' = instance w.
Proof.
  unfold addListener. destruct (states w !! this); simpl; [|discriminate].
  intros [= <-]. reflexivity.
Qed.

Lemma addProject_instance this random title description n w w' :
  addProject this random title description n w = Some w' → instance w' = instance w.
Proof.
  unfold addProject. destruct (states w !! this) as [s|]; simpl; [|discriminate].
  destruct (push _ _ _) as [h2|]; simpl; [|discriminate].
  destruct (notify _ _ _ _) as [[h3 e3]|]; simpl; [|discriminate].
  intros [= <-]. reflexivity.
Qed.

Lemma execOps_instance ops w w' r :
  instance w = Some r → execOps ops w = Some w' → instance w' = Some r.
Proof.
  revert w. induction ops as [|op ops IH]; intros w Hi; simpl.
  - intros [= <-]. exact Hi.
  - destruct (execOp op w) as [w1|] eqn:Hop; simpl; [|discriminate].
    apply IH. destruct op; simpl in Hop.
    + injection Hop as <-. rewrite (getInstance_again _ _ Hi). exact Hi.
    + rewrite (addListener_instance _ _ _ _ Hop). exact Hi.
    + rewrite (addProject_instance _ _ _ _ _ _ _ Hop). exact Hi.
Qed.

(** C1.  For every input triple, valid ones among them: in a store whose
    listeners leave the arrays they were not given and the projects alone,
    [addProject] returns; the store's sequence is the old one followed by the
    new project, one longer; the new project is [Active]; and the listeners
    have been notified in registration order, each with a fresh array that
    holds the references of the full sequence, the last one being that of the
    new project. *)
Theorem addProject_appends_and_notifies w this s old random title description numOfPeople :
  states w !! this = Some s →
  storeProjects this w = Some old →
  Forall keeps_other_arrays (listeners s) →
  Forall keeps_objects (listeners s) →
  let newProject :=
    Project.mk (numberToString random) title description numOfPeople Active in
  ∃ w' xs p h2,
    addProject this random title description numOfPeople w = Some w' ∧
    storeProjects this w' = Some (old ++ [newProject]) ∧
    length <$> storeProjects this w' = Some (S (length old)) ∧
    Project.status newProject = Active ∧
    arrs (heap w') !! projects s = Some (xs ++ [p]) ∧
    objs (heap w') !! p = Some newProject ∧
    push (projects s) p (allocProject newProject (heap w)).2 = Some h2 ∧
    notified (xs ++ [p]) (listeners s) (h2, env w) (heap w', env w').
Proof.
  intros Hs Hold Hframe Hobjs newProject.
  unfold storeProjects in Hold. rewrite Hs in Hold. simpl in Hold.
  apply contents_Some in Hold as (xs & Ha & Hxs).
  destruct (addProject_spec this s xs random title description numOfPeople w Hs Ha Hframe)
    as (w' & Hadd & Hst & _ & Ha' & Hn).
  fold newProject in Hn.
  set (p := length (objs (heap w))) in *.
  set (h2 := {| objs := objs (heap w) ++ [newProject];
                arrs := <[projects s := xs ++ [p]]> (arrs (heap w)) |}) in *.
  assert (Hp : objs (heap w') !! p = Some newProject).
  { apply (notified_keeps_objects _ _ _ _ _ _ Hobjs Hn). simpl.
    apply list_lookup_middle. reflexivity. }
  assert (Hnew : storeProjects this w' = Some (old ++ [newProject])).
  { unfold storeProjects. rewrite Hst, Hs. simpl.
    apply contents_Some. exists (xs ++ [p]). split; [exact Ha'|].
    apply Forall2_app; [|by constructor].
    eapply Forall2_impl; [exact Hxs|]. intros r q Hr.
    apply (notified_keeps_objects _ _ _ _ _ _ Hobjs Hn). simpl.
    rewrite lookup_app_l; [exact Hr | eapply lookup_lt_Some, Hr]. }
  exists w', xs, p, h2. repeat split; try assumption.
  - rewrite Hnew. simpl. rewrite length_app. simpl. f_equal. lia.
  - simpl. rewrite (push_Some _ _ _ xs) by exact Ha. reflexivity.
Qed.

(** C6.  [getInstance] creates the instance on the first call and returns
    that same reference from then on, leaving the state as it is, whatever
    store operations come in between; a project added through the reference
    of one call is read through the reference of another. *)
Theorem getInstance_singleton :
  (∀ w ops w2,
     execOps ops (getInstance w).2 = Some w2 →
     getInstance w2 = ((getInstance w).1, w2)) ∧
  (∀ w random title description numOfPeople,
     instance w = None →
     let r1 := (getInstance w).1 in
     let r2 := (getInstance (getInstance w).2).1 in
     r1 = r2 ∧
     ∃ w3, addProject r1 random title description numOfPeople
                      (getInstance (getInstance w).2).2 = Some w3 ∧
           storeProjects r2 w3 =
             Some [Project.mk (numberToString random) title description numOfPeople Active]).
Proof.
  split.
  - intros w ops w2 Hops. apply getInstance_again.
    eapply execOps_instance; [apply getInstance_instance | exact Hops].
  - intros w random title description numOfPeople Hnone r1 r2.
    assert (H2 : getInstance (getInstance w).2 = (r1, (getInstance w).2)).
    { apply getInstance_again, getInstance_instance. }
    subst r2. rewrite H2. simpl. split; [reflexivity|].
    subst r1. unfold getInstance. rewrite Hnone. simpl.
    unfold addProject. simpl. rewrite list_lookup_middle by reflexivity. simpl.
    unfold push. simpl. rewrite list_lookup_middle by reflexivity. simpl.
    eexists. split; [reflexivity|].
    unfold storeProjects. simpl. rewrite list_lookup_middle by reflexivity. simpl.
    unfold contents. simpl.
    rewrite list_lookup_insert_eq by (rewrite length_app; simpl; lia). simpl.
    rewrite list_lookup_middle by reflexivity. reflexivity.
Qed.

(** C7.  The array a listener receives is a copy: whatever the listeners do
    to the arrays they are given, the store's own array holds, after the
    call, exactly its old elements and the new one, and the next
    [addProject] extends that sequence and notifies with it. *)
Theorem snapshot_is_a_copy w this s xs r1 t1 d1 n1 r2 t2 d2 n2 :
  states w !! this = Some s →
  arrs (heap w) !! projects s = Some xs →
  Forall keeps_other_arrays (listeners s) →
  ∃ w1 w2 h2,
    addProject this r1 t1 d1 n1 w = Some w1 ∧
    arrs (heap w1) !! projects s = Some (xs ++ [length (objs (heap w))]) ∧
    addProject this r2 t2 d2 n2 w1 = Some w2 ∧
    arrs (heap w2) !! projects s
      = Some (xs ++ [length (objs (heap w)); length (objs (heap w1))]) ∧
    notified (xs ++ [length (objs (heap w)); length (objs (heap w1))])
             (listeners s) (h2, env w1) (heap w2, env w2).
Proof.
  intros Hs Ha Hframe.
  destruct (addProject_spec this s xs r1 t1 d1 n1 w Hs Ha Hframe)
    as (w1 & Hadd1 & Hst1 & _ & Ha1 & _).
  rewrite <- Hst1 in Hs.
  destruct (addProject_spec this s _ r2 t2 d2 n2 w1 Hs Ha1 Hframe)
    as (w2 & Hadd2 & _ & _ & Ha2 & Hn2).
  rewrite <- app_assoc in Ha2, Hn2. simpl in Ha2, Hn2.
  eexists w1, w2, _. repeat split; eassumption.
Qed.

(** C10.  Registration appends without looking: after the same callback has
    been registered twice it stands twice at the end of the listener list,
    and a notification round ends with two calls of it, one after the other,
    each with a fresh array of the full sequence. *)
Theorem listener_registered_twice w this s xs l random title description numOfPeople :
  states w !! this = Some s →
  arrs (heap w) !! projects s = Some xs →
  Forall keeps_other_arrays (listeners s) →
  keeps_other_arrays l →
  ∃ w1 w2 w3 h2 h e,
    addListener this l w = Some w1 ∧
    addListener this l w1 = Some w2 ∧
    states w2 !! this = Some {| listeners := listeners s ++ [l; l]; projects := projects s |} ∧
    addProject this random title description numOfPeople w2 = Some w3 ∧
    let ys := xs ++ [length (objs (heap w))] in
    notified ys (listeners s) (h2, env w) (h, e) ∧
    let first := l (length (arrs h)) {| objs := objs h; arrs := arrs h ++ [ys] |} e in
    let second :=
      l (length (arrs first.1))
        {| objs := objs first.1; arrs := arrs first.1 ++ [ys] |} first.2 in
    (heap w3, env w3) = second.
Proof.
  intros Hs Ha Hframe Hl.
  pose proof (lookup_lt_Some _ _ _ Hs) as Hlt.
  set (s1 := {| listeners := listeners s ++ [l]; projects := projects s |}).
  set (s2 := {| listeners := listeners s ++ [l; l]; projects := projects s |}).
  set (w1 := {| heap := heap w; states := <[this := s1]> (states w);
                instance := instance w; env := env w |}).
  set (w2 := {| heap := heap w; states := <[this := s2]> (states w);
                instance := instance w; env := env w |}).
  assert (H1 : addListener this l w = Some w1).
  { unfold addListener. rewrite Hs. reflexivity. }
  assert (H2 : addListener this l w1 = Some w2).
  { unfold addListener. simpl. rewrite list_lookup_insert_eq by exact Hlt. simpl.
    rewrite list_insert_insert_eq, <- app_assoc. reflexivity. }
  assert (Hs2 : states w2 !! this = Some s2).
  { simpl. apply list_lookup_insert_eq. exact Hlt. }
  assert (Hframe2 : Forall keeps_other_arrays (listeners s2)).
  { simpl. apply Forall_app. split; [exact Hframe|]. repeat constructor; exact Hl. }
  destruct (addProject_spec this s2 xs random title description numOfPeople w2 Hs2 Ha Hframe2)
    as (w3 & Hadd & _ & _ & _ & Hn).
  simpl in Hn. apply notified_app in Hn as ([h e] & Hn1 & Hn2).
  apply notified_cons_inv in Hn2.
  eexists w1, w2, w3, _, h, e. repeat split; try eassumption.
  simpl.
  destruct (l (length (arrs h)) _ e) as [h' e'].
  apply notified_cons_inv, notified_nil_inv in Hn2. exact Hn2.
Qed.

End StoreClaims.

(** ** The program's reachable states *)

Lemma boot_Inv : ∃ w0, boot = Some w0 ∧ Inv w0.
Proof.
  eexists. split; [reflexivity|].
  split; try reflexivity.
  - constructor.
  - intros []; reflexivity.
  - intros []; reflexivity.
  - intros []; constructor.
Qed.

Lemma getList_setList t t' l app :
  getList t (setList t' l app) = if decide (t = t') then l else getList t app.
Proof. destruct t, t'; reflexivity. Qed.

(** Among projects that are all [Active], the active list keeps every
    reference and the finished list none. *)
Lemma filter_all_active (O : list Project.t) (X : list ref) :
  Forall (λ p, Project.status p = Active) O →
  Forall (λ r, is_Some (O !! r)) X →
  filter (λ item, Project.status <$> O !! item = Some Active) X = X ∧
  filter (λ item, Project.status <$> O !! item = Some Finished) X = [].
Proof.
  intros HO HX. induction HX as [|r X [p Hp] _ [IH1 IH2]]; [split; reflexivity|].
  assert (Hst : Project.status <$> O !! r = Some Active).
  { rewrite Hp. simpl. f_equal.
    eapply (proj1 (Forall_lookup _ _) HO), Hp. }
  split.
  - rewrite filter_cons_True by exact Hst. f_equal. exact IH1.
  - rewrite filter_cons_False by (rewrite Hst; discriminate). exact IH2.
Qed.

(** One call of a list's listener, in closed form. *)
Lemma listListener_eq t snapshot h app xs :
  arrs h !! snapshot = Some xs →
  listListener t snapshot h app =
    let this := getList t app in
    let ys := filter (λ item, Project.status <$> objs h !! item
                              = Some (keeps (ProjectLists.type this))) xs in
    let h1 := {| objs := objs h; arrs := arrs h ++ [ys] |} in
    (h1, setList t
           (set_rows (omap (λ r, newProjectItem r h1) ys)
                     (set_assignedProjects (length (arrs h)) this))
           app).
Proof.
  intros Hx. unfold listListener, renderProjects. simpl. rewrite Hx. simpl.
  rewrite list_lookup_middle by reflexivity. reflexivity.
Qed.

Lemma newProjectItem_objs r h h' :
  objs h = objs h' → newProjectItem r h = newProjectItem r h'.
Proof. intros Ho. unfold newProjectItem. rewrite Ho. reflexivity. Qed.

Lemma newProjectItem_project r h row :
  newProjectItem r h = Some row → ProjectItem.project row = r.
Proof.
  unfold newProjectItem. destruct (objs h !! r); simpl; [|discriminate].
  intros [= <-]. reflexivity.
Qed.

Lemma rows_rendered h h' (X : list ref) :
  objs h = objs h' →
  Forall (λ row, newProjectItem (ProjectItem.project row) h' = Some row)
         (omap (λ r, newProjectItem r h) X).
Proof.
  intros Ho. apply Forall_forall. intros row Hrow.
  apply list_elem_of_omap in Hrow as (r & _ & Hr).
  rewrite (newProjectItem_project _ _ _ Hr), <- (newProjectItem_objs r h h' Ho).
  exact Hr.
Qed.

Lemma seq_valid {A} (O : list A) : Forall (λ r, is_Some (O !! r)) (seq 0 (length O)).
Proof.
  apply Forall_forall. intros r Hr. apply elem_of_seq in Hr.
  apply lookup_lt_is_Some. lia.
Qed.

(** The round of the two list listeners over all-[Active] projects. *)
Definition rendered (t : ListType) (a : ref) (rows : list ProjectItem.t) (app : App) : App :=
  setList t (set_rows rows (set_assignedProjects a (getList t app))) app.

Opaque listListener.

Lemma notify_lists h app X :
  arrs h !! 0 = Some X →
  Forall (λ p, Project.status p = Active) (objs h) →
  Forall (λ r, is_Some (objs h !! r)) X →
  (∀ t, ProjectLists.type (getList t app) = t) →
  notify [listListener active; listListener finished] 0 h app =
    Some ({| objs := objs h; arrs := arrs h ++ [X; X; X; []] |},
          rendered finished (length (arrs h) + 3) []
            (rendered active (length (arrs h) + 1)
               (omap (λ r, newProjectItem r {| objs := objs h; arrs := arrs h ++ [X; X] |}) X)
               app)).
Proof.
  intros H0 Hact HX Hty.
  destruct (filter_all_active (objs h) X Hact HX) as [Hkeep Hdrop].
  pose proof (lookup_lt_Some _ _ _ H0) as Hlt.
  pose proof (Hty active) as Hta. pose proof (Hty finished) as Htf.
  simpl in Hta, Htf.
  simpl. rewrite (slice_Some 0 h X) by exact H0. simpl.
  rewrite (listListener_eq active _ _ _ X) by (simpl; apply list_lookup_middle; reflexivity).
  simpl. rewrite Hta. simpl. rewrite Hkeep.
  rewrite (slice_Some 0 _ X)
    by (simpl; rewrite !lookup_app_l by (rewrite ?length_app; simpl; lia); exact H0).
  simpl.
  rewrite (listListener_eq finished _ _ _ X) by (simpl; apply list_lookup_middle; reflexivity).
  simpl. rewrite Htf. simpl. rewrite Hdrop. simpl.
  rewrite <- !app_assoc. simpl. unfold rendered. simpl.
  rewrite !length_app. simpl.
  replace (length (arrs h) + 1 + 1 + 1) with (length (arrs h) + 3) by lia.
  reflexivity.
Qed.

Transparent listListener.

Lemma addProject_Inv w random title description numOfPeople :
  Inv w →
  ∃ w', addProject 0 random title description numOfPeople w = Some w' ∧
        Inv w' ∧
        objs (heap w') =
          objs (heap w) ++
          [Project.mk (numberToString random) title description numOfPeople Active] ∧
        myForm (env w') = myForm (env w) ∧
        alerts (env w') = alerts (env w) ∧
        console (env w') = console (env w).
Proof.
  intros [Hps Hi Hst Hpr Hact Hty Hasg Hrows Hfin].
  destruct w as [[O A] sts inst app]; simpl in *. subst sts inst.
  set (new := Project.mk (numberToString random) title description numOfPeople Active).
  set (O' := O ++ [new]).
  set (X := seq 0 (length O')).
  assert (HX : seq 0 (length O) ++ [length O] = X).
  { unfold X, O'. rewrite length_app. simpl. rewrite Nat.add_1_r, seq_S. reflexivity. }
  assert (Hact' : Forall (λ p, Project.status p = Active) O').
  { apply Forall_app. split; [exact Hact | repeat constructor]. }
  pose proof (lookup_lt_Some _ _ _ Hpr) as HA.
  set (A' := <[0 := X]> A).
  assert (HA' : length A' = length A) by apply length_insert.
  assert (H0 : A' !! 0 = Some X) by (apply list_lookup_insert_eq; exact HA).
  unfold addProject.
  cbn [states heap env instance mbind option_bind lookup list_lookup projects listeners
       allocProject objs arrs].
  unfold push. cbn [objs arrs]. rewrite Hpr. cbn [mbind option_bind].
  fold new O'. rewrite HX. fold A'.
  rewrite (notify_lists {| objs := O'; arrs := A' |} app X H0 Hact' (seq_valid O') Hty).
  cbn [mbind option_bind objs arrs].
  eexists. split; [reflexivity|].
  split; [|repeat split; destruct app; reflexivity].
  split; cbn [heap env states instance objs arrs]; try reflexivity; try assumption.
  - rewrite lookup_app_l by lia. exact H0.
  - intros t. unfold rendered. rewrite !getList_setList.
    destruct t; simpl; [exact (Hty active) | exact (Hty finished)].
  - intros t. unfold rendered. rewrite !getList_setList.
    destruct t; simpl.
    + change (A' ++ [X; X; X; []]) with (A' ++ [X] ++ [X; X; []]).
      rewrite app_assoc.
      rewrite (list_lookup_middle (A' ++ [X]) _ X) by (rewrite length_app; simpl; lia).
      reflexivity.
    + change (A' ++ [X; X; X; []]) with (A' ++ [X; X; X] ++ [[]]).
      rewrite app_assoc.
      rewrite list_lookup_middle by (rewrite length_app; simpl; lia).
      reflexivity.
  - intros t. unfold rendered. rewrite !getList_setList.
    destruct t; simpl; [|constructor].
    apply rows_rendered. reflexivity.
Qed.

(** The invariant does not read the form, the alerts or the console. *)
Lemma Inv_set_env w e' :
  Inv w →
  projectState e' = projectState (env w) →
  (∀ t, ProjectLists.type (getList t e') = ProjectLists.type (getList t (env w))) →
  (∀ t, ProjectLists.assignedProjects (getList t e')
        = ProjectLists.assignedProjects (getList t (env w))) →
  (∀ t, ProjectLists.children (getList t e') = ProjectLists.children (getList t (env w))) →
  Inv (set_env e' w).
Proof.
  intros [Hps Hi Hst Hpr Hact Hty Hasg Hrows Hfin] Hp Ht Ha Hc.
  split; simpl; try assumption.
  - congruence.
  - intros t. rewrite Ht. apply Hty.
  - intros t. rewrite Ha. apply Hasg.
  - intros t. rewrite Hc. apply Hrows.
  - pose proof (Hc finished) as Hcf. simpl in Hcf. rewrite Hcf. exact Hfin.
Qed.

Lemma fetchUserInput_valid w :
  allValid (myForm (env w)) = true →
  fetchUserInput w =
    (Some (ProjectInput.titleInputElement (myForm (env w)),
           ProjectInput.descriptionInputElement (myForm (env w)),
           toNumber (ProjectInput.peopleInputElement (myForm (env w)))), w).
Proof.
  unfold allValid, fetchUserInput. intros Hv.
  apply andb_true_iff in Hv as [Hv Hp]. apply andb_true_iff in Hv as [Ht Hd].
  rewrite Ht, Hd, Hp. reflexivity.
Qed.

Lemma fetchUserInput_invalid w :
  allValid (myForm (env w)) = false →
  fetchUserInput w =
    (None, set_env (alert "please provide all required information " (env w)) w).
Proof.
  unfold allValid, fetchUserInput. intros Hv.
  destruct (validateForm (titleValidationInput _)); [|reflexivity].
  destruct (validateForm (descriptionValidationInput _)); [|reflexivity].
  destruct (validateForm (peopleValidationInput _)); [discriminate | reflexivity].
Qed.

(** A rejected submission: the alert, and nothing else. *)
Lemma submitHandler_invalid event random w :
  allValid (myForm (env w)) = false →
  submitHandler event random w =
    Some ({| Event.defaultPrevented := true |},
          set_env (alert "please provide all required information " (env w)) w).
Proof.
  intros Hv. unfold submitHandler. rewrite (fetchUserInput_invalid _ Hv). reflexivity.
Qed.

(** An accepted submission, in a state of the invariant's shape. *)
Lemma submitHandler_valid event random w :
  Inv w →
  allValid (myForm (env w)) = true →
  let form := myForm (env w) in
  let title := ProjectInput.titleInputElement form in
  let desc := ProjectInput.descriptionInputElement form in
  let people := toNumber (ProjectInput.peopleInputElement form) in
  ∃ w',
    addProject (projectState (env w)) random title desc people
      (set_env (console_log [VString title; VString desc; VNumber people] (env w)) w)
      = Some w' ∧
    submitHandler event random w = Some ({| Event.defaultPrevented := true |}, clearInput w') ∧
    Inv (clearInput w') ∧
    objs (heap w') = objs (heap w) ++ [Project.mk (numberToString random) title desc people Active] ∧
    alerts (env w') = alerts (env w).
Proof.
  intros HI Hv form title desc people.
  set (w2 := set_env (console_log [VString title; VString desc; VNumber people] (env w)) w).
  assert (HI2 : Inv w2).
  { apply Inv_set_env; try assumption; try reflexivity; intros []; reflexivity. }
  destruct (addProject_Inv w2 random title desc people HI2)
    as (w' & Hadd & HI' & Hobjs & _ & Hal & _).
  exists w'.
  assert (Hps : projectState (env w) = 0) by apply HI.
  rewrite Hps.
  split; [exact Hadd|]. split; [|split; [|split; [exact Hobjs | exact Hal]]].
  - unfold submitHandler. rewrite (fetchUserInput_valid _ Hv).
    fold form title desc people. fold w2.
    replace (projectState (env w2)) with 0 by (symmetry; apply HI2).
    rewrite Hadd. reflexivity.
  - apply Inv_set_env; try assumption; try reflexivity; intros []; reflexivity.
Qed.

Lemma step_Inv a w : Inv w → ∃ w', step a w = Some w' ∧ Inv w'.
Proof.
  intros HI. destruct a as [f s|event random|t i event|t i event|t event|t event|t event];
    simpl.
  - eexists. split; [reflexivity|].
    apply Inv_set_env; try assumption; try reflexivity; intros []; reflexivity.
  - destruct (allValid (myForm (env w))) eqn:Hv.
    + destruct (submitHandler_valid event random w HI Hv) as (w' & _ & Hs & HI' & _).
      rewrite Hs. simpl. eauto.
    + rewrite (submitHandler_invalid _ _ _ Hv). simpl.
      eexists. split; [reflexivity|].
      apply Inv_set_env; try assumption; try reflexivity; intros []; reflexivity.
  - eauto.
  - destruct (ProjectLists.children (getList t (env w)) !! i); eauto.
    eexists. split; [reflexivity|].
    apply Inv_set_env; try assumption; try reflexivity; intros []; reflexivity.
  - eexists. split; [reflexivity|].
    unfold dragOverHandler.
    destruct (DragEvent.dataTransfer event) as [dt|]; [|exact HI].
    destruct (bool_decide _); [|exact HI]. simpl.
    apply Inv_set_env; try assumption; try (destruct t; reflexivity);
      intros t'; rewrite getList_setList; destruct (decide (t' = t)) as [->|]; reflexivity.
  - eexists. split; [reflexivity|].
    apply Inv_set_env; try assumption; try (destruct t; reflexivity);
      intros t'; rewrite getList_setList; destruct (decide (t' = t)) as [->|]; reflexivity.
  - eexists. split; [reflexivity|].
    unfold dropHandler. destruct (DragEvent.dataTransfer event) as [dt|]; [|exact HI].
    simpl. apply Inv_set_env; try assumption; try reflexivity; intros []; reflexivity.
Qed.

Lemma run_Inv acts : ∀ w, Inv w → ∃ w', run acts w = Some w' ∧ Inv w'.
Proof.
  induction acts as [|a acts IH]; intros w HI; simpl.
  - eauto.
  - destruct (step_Inv a w HI) as (w1 & -> & HI1). simpl. apply IH, HI1.
Qed.

(** The event loop never gets stuck, and every state it reaches has the
    invariant's shape. *)
Lemma reachable_Inv w : reachable w → Inv w.
Proof.
  intros (acts & w0 & Hb & Hr).
  destruct boot_Inv as (w0' & Hb' & HI0). rewrite Hb in Hb'. injection Hb' as <-.
  destruct (run_Inv acts w0 HI0) as (w' & Hr' & HI). congruence.
Qed.

Lemma run_total acts : ∃ w0 w, boot = Some w0 ∧ run acts w0 = Some w ∧ Inv w.
Proof.
  destruct boot_Inv as (w0 & Hb & HI0).
  destruct (run_Inv acts w0 HI0) as (w & Hr & HI). eauto.
Qed.

(** The store of a state of the invariant's shape holds all the projects
    there are, in the order of their creation. *)
Lemma mapM_lookup_seq {A} (O : list A) : mapM (λ r, O !! r) (seq 0 (length O)) = Some O.
Proof.
  apply mapM_Some, Forall2_lookup. intros i.
  destruct (decide (i < length O)) as [Hi|Hi].
  - rewrite lookup_seq_lt by exact Hi. simpl.
    destruct (lookup_lt_is_Some_2 O i Hi) as [x Hx]. rewrite Hx.
    constructor. exact Hx.
  - rewrite lookup_seq_ge by lia. rewrite lookup_ge_None_2 by lia. constructor.
Qed.

Lemma Inv_storeProjects w : Inv w → storeProjects 0 w = Some (objs (heap w)).
Proof.
  intros HI. unfold storeProjects. rewrite (inv_states w HI). simpl.
  unfold contents. rewrite (inv_projects w HI). simpl. apply mapM_lookup_seq.
Qed.

(** ** Drag data *)

Lemma getData_setData format data dt : getData format (setData format data dt) = data.
Proof.
  unfold getData, setData. simpl.
  rewrite list_find_app_r.
  - simpl. rewrite decide_True by reflexivity. reflexivity.
  - apply list_find_None, Forall_forall. intros it Hit.
    apply list_elem_of_filter in Hit as [Hne _]. exact Hne.
Qed.

(** ** The program's claims *)

(** C2.  In every reachable state, a submission with a failing validation
    prevents the default action, raises the one alert and changes nothing
    else (the store, the heaps, the lists and the three fields are as they
    were, so no project was added and no listener ran); a submission whose
    three validations pass calls [addProject] with the three values, after
    which the store holds the new project last and the three fields are
    empty, with no alert. *)
Theorem submit_all_or_nothing event random w :
  reachable w →
  let form := myForm (env w) in
  let title := ProjectInput.titleInputElement form in
  let desc := ProjectInput.descriptionInputElement form in
  let people := toNumber (ProjectInput.peopleInputElement form) in
  (allValid form = false →
   submitHandler event random w =
     Some ({| Event.defaultPrevented := true |},
           set_env (alert "please provide all required information " (env w)) w)) ∧
  (allValid form = true →
   ∃ w' old,
     storeProjects (projectState (env w)) w = Some old ∧
     addProject (projectState (env w)) random title desc people
       (set_env (console_log [VString title; VString desc; VNumber people] (env w)) w)
       = Some w' ∧
     submitHandler event random w =
       Some ({| Event.defaultPrevented := true |}, clearInput w') ∧
     storeProjects (projectState (env w)) (clearInput w') =
       Some (old ++ [Project.mk (numberToString random) title desc people Active]) ∧
     myForm (env (clearInput w')) = ProjectInput.mk "" "" "" ∧
     alerts (env (clearInput w')) = alerts (env w)).
Proof.
  intros Hr form title desc people. apply reachable_Inv in Hr as HI.
  split; intros Hv.
  - apply submitHandler_invalid, Hv.
  - destruct (submitHandler_valid event random w HI Hv)
      as (w' & Hadd & Hs & HI' & Hobjs & Hal).
    exists w', (objs (heap w)).
    rewrite (inv_projectState w HI).
    rewrite (inv_projectState w HI) in Hadd.
    split; [apply Inv_storeProjects, HI|].
    split; [exact Hadd|]. split; [exact Hs|].
    split; [|split; [reflexivity | exact Hal]].
    rewrite (Inv_storeProjects _ HI'). simpl. rewrite Hobjs. reflexivity.
Qed.

(** C5.  The event loop never gets stuck, and in every state it reaches all
    the projects of the store are [Active], the finished list is assigned
    the empty array and shows no row, and a drop changes nothing but the
    console. *)
Theorem every_project_stays_active acts :
  ∃ w0 w,
    boot = Some w0 ∧ run acts w0 = Some w ∧
    (∃ ps, storeProjects (projectState (env w)) w = Some ps ∧
           Forall (λ p, Project.status p = Active) ps) ∧
    contents (ProjectLists.assignedProjects (finishedProjectLists (env w))) (heap w)
      = Some [] ∧
    ProjectLists.children (finishedProjectLists (env w)) = [] ∧
    (∀ t event, ∃ w',
       step (Drop t event) w = Some w' ∧
       heap w' = heap w ∧ states w' = states w ∧ instance w' = instance w ∧
       myForm (env w') = myForm (env w) ∧
       activeProjectLists (env w') = activeProjectLists (env w) ∧
       finishedProjectLists (env w') = finishedProjectLists (env w) ∧
       alerts (env w') = alerts (env w)).
Proof.
  destruct (run_total acts) as (w0 & w & Hb & Hr & HI).
  exists w0, w. split; [exact Hb|]. split; [exact Hr|].
  split; [|split; [|split]].
  - exists (objs (heap w)). rewrite (inv_projectState w HI).
    split; [apply Inv_storeProjects, HI | apply HI].
  - unfold contents. pose proof (inv_assigned w HI finished) as Ha. simpl in Ha.
    rewrite Ha. reflexivity.
  - apply HI.
  - intros t event. simpl. unfold dropHandler.
    destruct (DragEvent.dataTransfer event); simpl; eexists; repeat split.
Qed.

(** C8, as amended.  The event loop never gets stuck, and in every state it
    reaches the identifiers of the store's projects are the string forms of
    the values [Math.random()] returned, in order: they are pairwise different
    whenever those string forms are. *)
Theorem ids_are_the_draws acts :
  ∃ w0 w ps,
    boot = Some w0 ∧ run acts w0 = Some w ∧
    storeProjects (projectState (env w)) w = Some ps ∧
    Project.id <$> ps = numberToString <$> draws acts w0 ∧
    (NoDup (numberToString <$> draws acts w0) → NoDup (Project.id <$> ps)).
Proof.
  assert (Hgen : ∀ acts w, Inv w → ∃ w',
            run acts w = Some w' ∧ Inv w' ∧
            Project.id <$> objs (heap w') =
              (Project.id <$> objs (heap w)) ++ (numberToString <$> draws acts w)).
  { clear acts. induction acts as [|a acts IH]; intros w HI.
    - exists w. simpl. rewrite app_nil_r. auto.
    - assert (Hstep : ∃ w1, step a w = Some w1 ∧ Inv w1 ∧
                Project.id <$> objs (heap w1) =
                (Project.id <$> objs (heap w)) ++
                (numberToString <$>
                   match a with
                   | Submit _ random =>
                       match (fetchUserInput w).1 with Some _ => [random] | None => [] end
                   | _ => []
                   end)).
      { destruct (step_Inv a w HI) as (w1 & Hs & HI1). exists w1.
        split; [exact Hs|]. split; [exact HI1|].
        destruct a as [f s|event random|t i event|t i event|t event|t event|t event];
          simpl in Hs |- *; rewrite ?app_nil_r.
        - injection Hs as <-. reflexivity.
        - destruct (allValid (myForm (env w))) eqn:Hv.
          + destruct (submitHandler_valid event random w HI Hv)
              as (w' & _ & Hsub & _ & Hobjs & _).
            rewrite Hsub in Hs. injection Hs as <-.
            rewrite (fetchUserInput_valid _ Hv). simpl. rewrite Hobjs.
            rewrite fmap_app. reflexivity.
          + rewrite (submitHandler_invalid _ _ _ Hv) in Hs. injection Hs as <-.
            rewrite (fetchUserInput_invalid _ Hv). simpl. rewrite app_nil_r. reflexivity.
        - injection Hs as <-. reflexivity.
        - destruct (ProjectLists.children _ !! i); injection Hs as <-; reflexivity.
        - injection Hs as <-. unfold dragOverHandler.
          destruct (DragEvent.dataTransfer event); [|reflexivity].
          destruct (bool_decide _); reflexivity.
        - injection Hs as <-. reflexivity.
        - injection Hs as <-. unfold dropHandler.
          destruct (DragEvent.dataTransfer event); reflexivity. }
      destruct Hstep as (w1 & Hs & HI1 & Hids).
      destruct (IH w1 HI1) as (w' & Hr & HI' & Hids').
      exists w'. simpl. rewrite Hs. simpl.
      split; [exact Hr|]. split; [exact HI'|].
      rewrite Hids', Hids, fmap_app, app_assoc. reflexivity. }
  destruct boot_Inv as (w0 & Hb & HI0).
  destruct (Hgen acts w0 HI0) as (w & Hr & HI & Hids).
  exists w0, w, (objs (heap w)).
  split; [exact Hb|]. split; [exact Hr|].
  rewrite (inv_projectState w HI).
  split; [apply Inv_storeProjects, HI|].
  assert (Hnil : objs (heap w0) = []).
  { unfold boot in Hb. simpl in Hb. injection Hb as <-. reflexivity. }
  rewrite Hnil in Hids. simpl in Hids.
  split; [exact Hids|]. rewrite Hids. tauto.
Qed.

(** C9.  The event loop never gets stuck, and in every state it reaches, the
    drag-start handler of every rendered row, given a drag event that
    carries a data transfer, returns with the identifier of the row's project
    as the transferred plain text and with [move] as the allowed effect. *)
Theorem dragStart_transfers_the_id acts :
  ∃ w0 w,
    boot = Some w0 ∧ run acts w0 = Some w ∧
    ∀ t row dt prevented,
      row ∈ ProjectLists.children (getList t (env w)) →
      ∃ p dt',
        objs (heap w) !! ProjectItem.project row = Some p ∧
        ProjectItem.elementId row = Project.id p ∧
        dragStartHandler row (DragEvent.mk (Some dt) prevented) (heap w)
          = Some (DragEvent.mk (Some dt') prevented) ∧
        getData "text/plain" dt' = Project.id p ∧
        DataTransfer.effectAllowed dt' = "move".
Proof.
  destruct (run_total acts) as (w0 & w & Hb & Hr & HI).
  exists w0, w. split; [exact Hb|]. split; [exact Hr|].
  intros t row dt prevented Hrow.
  pose proof (proj1 (Forall_forall _ _) (inv_rows w HI t) row Hrow) as Hnew.
  unfold newProjectItem in Hnew.
  destruct (objs (heap w) !! ProjectItem.project row) as [p|] eqn:Hp;
    simpl in Hnew; [|discriminate].
  exists p. eexists. split; [reflexivity|].
  split; [injection Hnew as <-; reflexivity|].
  unfold dragStartHandler. simpl. rewrite Hp. simpl.
  split; [reflexivity|]. split; [|reflexivity].
  unfold set_effectAllowed, getData. simpl.
  apply (getData_setData "text/plain" (Project.id p) dt).
Qed.

(** * Further properties *)

(** ** The validator's edge cases *)

Lemma trimStart_blank s : blank s = true → trimStart s = "".
Proof.
  induction s as [|c s IH]; simpl; [reflexivity|].
  intros Hb. apply andb_true_iff in Hb as [Hc Hs]. rewrite Hc. apply IH, Hs.
Qed.

Lemma trimStart_not_blank s :
  blank s = false → ∃ c t, trimStart s = String c t ∧ isWhiteSpace c = false.
Proof.
  induction s as [|c s IH]; simpl; [discriminate|].
  destruct (isWhiteSpace c) eqn:Hc; simpl.
  - exact IH.
  - intros _. exists c, s. split; [reflexivity | exact Hc].
Qed.

Lemma blank_rev_onto s acc : blank (rev_onto s acc) = blank s && blank acc.
Proof.
  revert acc. induction s as [|c s IH]; intros acc; simpl; [reflexivity|].
  rewrite IH. simpl. destruct (isWhiteSpace c), (blank s); reflexivity.
Qed.

Lemma length_rev_onto s acc :
  String.length (rev_onto s acc) = String.length s + String.length acc.
Proof.
  revert acc. induction s as [|c s IH]; intros acc; simpl; [reflexivity|].
  rewrite IH. simpl. lia.
Qed.

(** [trim] leaves the empty string exactly of the blank strings. *)
Lemma trim_empty_iff_blank s : (String.length (trim s) =? 0)%nat = blank s.
Proof.
  unfold trim, trimEnd. destruct (blank s) eqn:Hb.
  - rewrite (trimStart_blank s Hb). reflexivity.
  - destruct (trimStart_not_blank s Hb) as (c & t & -> & Hc).
    assert (Hr : blank (rev_onto (String c t) "") = false).
    { rewrite blank_rev_onto. simpl. rewrite Hc. reflexivity. }
    destruct (trimStart_not_blank _ Hr) as (c' & t' & -> & _).
    rewrite length_rev_onto. simpl. first [reflexivity | apply Nat.eqb_neq; lia].
Qed.

(** A number that is not a number is below nothing and above nothing. *)
Lemma ltb_nan_l (x y : number) : PrimFloat.is_nan x = true → PrimFloat.ltb x y = false.
Proof.
  unfold PrimFloat.is_nan. rewrite FloatAxioms.eqb_spec, FloatAxioms.ltb_spec.
  unfold SFeqb, SFltb.
  destruct (Prim2SF x) as [s|s| |s m e]; simpl.
  - discriminate.
  - destruct s; discriminate.
  - reflexivity.
  - destruct s; rewrite Z.compare_refl, Pos.compare_cont_refl; discriminate.
Qed.

Lemma ltb_nan_r (x y : number) : PrimFloat.is_nan y = true → PrimFloat.ltb x y = false.
Proof.
  unfold PrimFloat.is_nan. rewrite FloatAxioms.eqb_spec, FloatAxioms.ltb_spec.
  unfold SFeqb, SFltb.
  destruct (Prim2SF y) as [s|s| |s m e]; simpl.
  - discriminate.
  - destruct s; discriminate.
  - destruct (Prim2SF x); reflexivity.
  - destruct s; rewrite Z.compare_refl, Pos.compare_cont_refl; discriminate.
Qed.

(** Up to length 5 the length of a string is not above 5. *)
Lemma short_not_above_5 s : (String.length s ≤ 5)%nat → gtb (length_number s) 5 = false.
Proof.
  unfold length_number. intros Hs.
  destruct (String.length s) as [|[|[|[|[|[|n]]]]]]; try (vm_compute; reflexivity).
  lia.
Qed.

(** X1.  With [required] set and no length bound, a string passes exactly
    when it has a character that is not white space: the empty string and the
    strings of blanks are rejected, every other string is accepted; bounds
    [min] and [max], if any, play no part. *)
Theorem required_accepts_exactly_nonblank s lo hi :
  validateForm {| Validation.value := VString s; Validation.required := Some true;
                  Validation.minLength := None; Validation.maxLength := None;
                  Validation.min := lo; Validation.max := hi |}
  = negb (blank s).
Proof.
  rewrite validateForm_string. simpl. rewrite !andb_true_r.
  rewrite trim_empty_iff_blank. reflexivity.
Qed.

(** A bound applies only to a value of its own type: [minLength] and
    [maxLength] are skipped for a number, [min] and [max] for a string, so
    that a rule gives the same result with or without them. *)
Lemma bounds_apply_by_type :
  (∀ v req a b lo hi,
     validateForm {| Validation.value := VNumber v; Validation.required := req;
                     Validation.minLength := a; Validation.maxLength := b;
                     Validation.min := lo; Validation.max := hi |}
     = validateForm {| Validation.value := VNumber v; Validation.required := req;
                       Validation.minLength := None; Validation.maxLength := None;
                       Validation.min := lo; Validation.max := hi |}) ∧
  (∀ s req a b lo hi,
     validateForm {| Validation.value := VString s; Validation.required := req;
                     Validation.minLength := a; Validation.maxLength := b;
                     Validation.min := lo; Validation.max := hi |}
     = validateForm {| Validation.value := VString s; Validation.required := req;
                       Validation.minLength := a; Validation.maxLength := b;
                       Validation.min := None; Validation.max := None |}).
Proof.
  split; intros.
  - rewrite !validateForm_number. reflexivity.
  - rewrite !validateForm_string. reflexivity.
Qed.

Lemma allValid_description_false form :
  validateForm (descriptionValidationInput (ProjectInput.descriptionInputElement form)) = false →
  allValid form = false.
Proof.
  intros Hd. unfold allValid. rewrite Hd. rewrite andb_false_r. reflexivity.
Qed.

Lemma allValid_people_false form :
  validateForm (peopleValidationInput (ProjectInput.peopleInputElement form)) = false →
  allValid form = false.
Proof.
  intros Hp. unfold allValid. rewrite Hp. rewrite andb_false_r. reflexivity.
Qed.

(** X2.  A submission whose description has at most five code units is
    rejected whatever the title and the people count are: the alert is
    raised and nothing else changes.  Five itself is too short. *)
Theorem short_description_is_rejected event random w :
  (String.length (ProjectInput.descriptionInputElement (myForm (env w))) ≤ 5)%nat →
  submitHandler event random w =
    Some ({| Event.defaultPrevented := true |},
          set_env (alert "please provide all required information " (env w)) w).
Proof.
  intros Hs. apply submitHandler_invalid, allValid_description_false.
  unfold descriptionValidationInput. rewrite validateForm_string.
  rewrite (short_not_above_5 _ Hs). rewrite andb_false_r. reflexivity.
Qed.

(** X3.  A submission whose people entry converts to NaN (an entry that is
    not numeric) is rejected whatever the title and the description are:
    NaN is neither above 0 nor below 5. *)
Theorem nan_people_is_rejected event random w :
  PrimFloat.is_nan (toNumber (ProjectInput.peopleInputElement (myForm (env w)))) = true →
  submitHandler event random w =
    Some ({| Event.defaultPrevented := true |},
          set_env (alert "please provide all required information " (env w)) w).
Proof.
  intros Hn. apply submitHandler_invalid, allValid_people_false.
  unfold peopleValidationInput. rewrite validateForm_number.
  rewrite (ltb_nan_l _ _ Hn). rewrite andb_false_r. reflexivity.
Qed.

(** X4.  Right after an accepted submission the form is empty, so a second
    submission with no edit in between is rejected: it raises the alert and
    adds no project, whatever [Math.random()] would have returned. *)
Theorem resubmission_is_rejected event random w event1 w1 event' random' :
  allValid (myForm (env w)) = true →
  submitHandler event random w = Some (event1, w1) →
  submitHandler event' random' w1 =
    Some ({| Event.defaultPrevented := true |},
          set_env (alert "please provide all required information " (env w1)) w1).
Proof.
  intros Hv Hs. unfold submitHandler in Hs.
  rewrite (fetchUserInput_valid _ Hv) in Hs.
  destruct (addProject _ _ _ _ _ _) as [w3|]; simpl in Hs; [|discriminate].
  injection Hs as _ <-.
  apply submitHandler_invalid. reflexivity.
Qed.

(** ** What the lists show, and what the store keeps *)

Lemma newProjectItem_rowOf r h p :
  objs h !! r = Some p → newProjectItem r h = Some (rowOf r p).
Proof. intros Hp. unfold newProjectItem. rewrite Hp. reflexivity. Qed.

(** Rendering all the references there are gives one row per project, in
    order. *)
Lemma omap_newProjectItem_seq h :
  omap (λ r, newProjectItem r h) (seq 0 (length (objs h))) = imap rowOf (objs h).
Proof.
  assert (Hgen : ∀ l pre, objs h = pre ++ l →
            omap (λ r, newProjectItem r h) (seq (length pre) (length l))
            = imap (λ i, rowOf (length pre + i)) l).
  { induction l as [|x l IH]; intros pre Hh; [reflexivity|].
    cbn [length seq omap list_omap].
    rewrite (newProjectItem_rowOf (length pre) h x)
      by (rewrite Hh; apply list_lookup_middle; reflexivity).
    rewrite imap_cons, Nat.add_0_r. f_equal.
    specialize (IH (pre ++ [x])).
    rewrite length_app in IH. simpl in IH. rewrite Nat.add_1_r in IH.
    rewrite IH by (rewrite <- app_assoc; exact Hh).
    apply imap_ext. intros i y _. simpl. f_equal. lia. }
  apply (Hgen (objs h) []). reflexivity.
Qed.

Opaque listListener.

(** After [addProject], in a state of the invariant's shape, the active list
    shows every project there is. *)
Lemma addProject_rows w random title description numOfPeople :
  Inv w →
  ∃ w', addProject 0 random title description numOfPeople w = Some w' ∧
        ProjectLists.children (activeProjectLists (env w')) = imap rowOf (objs (heap w')).
Proof.
  intros [Hps Hi Hst Hpr Hact Hty Hasg Hrows Hfin].
  destruct w as [[O A] sts inst app]; simpl in *. subst sts inst.
  set (new := Project.mk (numberToString random) title description numOfPeople Active).
  set (O' := O ++ [new]).
  set (X := seq 0 (length O')).
  assert (HX : seq 0 (length O) ++ [length O] = X).
  { unfold X, O'. rewrite length_app. simpl. rewrite Nat.add_1_r, seq_S. reflexivity. }
  assert (Hact' : Forall (λ p, Project.status p = Active) O').
  { apply Forall_app. split; [exact Hact | repeat constructor]. }
  pose proof (lookup_lt_Some _ _ _ Hpr) as HA.
  set (A' := <[0 := X]> A).
  assert (H0 : A' !! 0 = Some X) by (apply list_lookup_insert_eq; exact HA).
  unfold addProject.
  cbn [states heap env instance mbind option_bind lookup list_lookup projects listeners
       allocProject objs arrs].
  unfold push. cbn [objs arrs]. rewrite Hpr. cbn [mbind option_bind].
  fold new O'. rewrite HX. fold A'.
  rewrite (notify_lists {| objs := O'; arrs := A' |} app X H0 Hact' (seq_valid O') Hty).
  cbn [mbind option_bind objs arrs].
  eexists. split; [reflexivity|].
  cbn [env heap objs]. unfold rendered. cbn [getList setList activeProjectLists].
  cbn [set_rows ProjectLists.children].
  apply (omap_newProjectItem_seq {| objs := O'; arrs := A' ++ [X; X] |}).
Qed.

Transparent listListener.

(** One turn of the event loop either leaves the heap and the rows as they
    were, or is an accepted submission, which adds the entered project at the
    end and renders the active list anew. *)
Lemma step_cases a w w1 :
  Inv w →
  step a w = Some w1 →
  (heap w1 = heap w ∧
   ∀ t, ProjectLists.children (getList t (env w1))
        = ProjectLists.children (getList t (env w)))
  ∨
  (allValid (myForm (env w)) = true ∧
   ∃ random,
     objs (heap w1) =
       objs (heap w) ++
       [Project.mk (numberToString random)
          (ProjectInput.titleInputElement (myForm (env w)))
          (ProjectInput.descriptionInputElement (myForm (env w)))
          (toNumber (ProjectInput.peopleInputElement (myForm (env w)))) Active] ∧
     ProjectLists.children (activeProjectLists (env w1)) = imap rowOf (objs (heap w1))).
Proof.
  intros HI Hs.
  destruct a as [f s|event random|t i event|t i event|t event|t event|t event];
    simpl in Hs.
  - injection Hs as <-. left. split; [reflexivity | intros []; reflexivity].
  - destruct (allValid (myForm (env w))) eqn:Hv.
    + right. split; [reflexivity|]. exists random.
      destruct (submitHandler_valid event random w HI Hv)
        as (w' & Hadd & Hsub & _ & Hobjs & _).
      rewrite Hsub in Hs. injection Hs as <-.
      split; [exact Hobjs|].
      rewrite (inv_projectState w HI) in Hadd.
      match type of Hadd with
      | addProject 0 ?r ?ti ?d ?n ?w2 = _ =>
          assert (HI2 : Inv w2)
            by (apply Inv_set_env; try assumption; try reflexivity; intros []; reflexivity);
          destruct (addProject_rows w2 r ti d n HI2) as (w'' & Hadd' & Hrows)
      end.
      rewrite Hadd in Hadd'. injection Hadd' as <-. exact Hrows.
    + rewrite (submitHandler_invalid _ _ _ Hv) in Hs. injection Hs as <-.
      left. split; [reflexivity | intros []; reflexivity].
  - injection Hs as <-. left. split; [reflexivity | intros []; reflexivity].
  - destruct (ProjectLists.children _ !! i); injection Hs as <-;
      left; (split; [reflexivity | intros []; reflexivity]).
  - injection Hs as <-. left. unfold dragOverHandler.
    destruct (DragEvent.dataTransfer event) as [dt|];
      [|split; [reflexivity | intros []; reflexivity]].
    destruct (bool_decide _); [|split; [reflexivity | intros []; reflexivity]].
    simpl. split; [reflexivity|].
    intros t'. rewrite getList_setList. destruct (decide (t' = t)) as [->|]; reflexivity.
  - injection Hs as <-. left. split; [reflexivity|].
    intros t'. unfold dragLeaveHandler. simpl. rewrite getList_setList.
    destruct (decide (t' = t)) as [->|]; reflexivity.
  - injection Hs as <-. left. unfold dropHandler.
    destruct (DragEvent.dataTransfer event);
      (split; [reflexivity | intros []; reflexivity]).
Qed.

(** A property of the heap and the rows that an accepted submission
    establishes anew, and that holds initially, holds in every state. *)
Lemma run_cases (P : World App → Prop) :
  (∀ a w w1, Inv w → P w → step a w = Some w1 →
     heap w1 = heap w →
     (∀ t, ProjectLists.children (getList t (env w1))
           = ProjectLists.children (getList t (env w))) →
     P w1) →
  (∀ a w w1 random, Inv w → P w → step a w = Some w1 →
     allValid (myForm (env w)) = true →
     objs (heap w1) =
       objs (heap w) ++
       [Project.mk (numberToString random)
          (ProjectInput.titleInputElement (myForm (env w)))
          (ProjectInput.descriptionInputElement (myForm (env w)))
          (toNumber (ProjectInput.peopleInputElement (myForm (env w)))) Active] →
     ProjectLists.children (activeProjectLists (env w1)) = imap rowOf (objs (heap w1)) →
     P w1) →
  ∀ acts w w', Inv w → P w → run acts w = Some w' → P w'.
Proof.
  intros Hsame Hadd. induction acts as [|a acts IH]; intros w w' HI HP; simpl.
  - intros [= <-]. exact HP.
  - destruct (step a w) as [w1|] eqn:Hs; simpl; [|discriminate].
    destruct (step_Inv a w HI) as (w1' & Hs' & HI1).
    rewrite Hs in Hs'. injection Hs' as <-.
    apply IH; [exact HI1|].
    destruct (step_cases a w w1 HI Hs) as [[Hh Hc] | (Hv & random & Ho & Hr)].
    + exact (Hsame a w w1 HI HP Hs Hh Hc).
    + exact (Hadd a w w1 random HI HP Hs Hv Ho Hr).
Qed.

(** What the rules leave true of the values they accept. *)
Lemma allValid_validated form random :
  allValid form = true →
  validated (Project.mk (numberToString random)
               (ProjectInput.titleInputElement form)
               (ProjectInput.descriptionInputElement form)
               (toNumber (ProjectInput.peopleInputElement form)) Active).
Proof.
  unfold allValid. intros Hv.
  apply andb_true_iff in Hv as [Hv Hp]. apply andb_true_iff in Hv as [Ht Hd].
  unfold titleValidationInput in Ht. rewrite validateForm_string in Ht.
  unfold descriptionValidationInput in Hd. rewrite validateForm_string in Hd.
  unfold peopleValidationInput in Hp. rewrite validateForm_number in Hp.
  simpl in Ht, Hd, Hp. rewrite !andb_true_r in Ht. rewrite andb_true_r in Hd.
  rewrite trim_empty_iff_blank in Ht, Hd.
  apply negb_true_iff in Ht.
  apply andb_true_iff in Hd as [Hd Hlen]. apply negb_true_iff in Hd.
  apply andb_true_iff in Hp as [Hp Hhi]. apply andb_true_iff in Hp as [_ Hlo].
  unfold validated. simpl. repeat split; try assumption.
  destruct (decide (5 < String.length (ProjectInput.descriptionInputElement form))%nat)
    as [Hok|Hshort]; [exact Hok|].
  rewrite short_not_above_5 in Hlen by lia. discriminate.
Qed.

Lemma boot_empty w0 : boot = Some w0 → objs (heap w0) = [] ∧
  ProjectLists.children (activeProjectLists (env w0)) = [].
Proof. unfold boot. simpl. intros [= <-]. split; reflexivity. Qed.

(** X5.  The event loop never gets stuck, and after every event the active
    list shows exactly the projects of the store, one row per project in
    insertion order, each row carrying its project's reference, identifier,
    title, people text and description; the finished list shows nothing. *)
Theorem active_list_mirrors_store acts :
  ∃ w0 w ps,
    boot = Some w0 ∧ run acts w0 = Some w ∧
    storeProjects (projectState (env w)) w = Some ps ∧
    ProjectLists.children (activeProjectLists (env w)) = imap rowOf ps ∧
    ProjectLists.children (finishedProjectLists (env w)) = [].
Proof.
  destruct boot_Inv as (w0 & Hb & HI0).
  destruct (run_Inv acts w0 HI0) as (w & Hr & HI).
  exists w0, w, (objs (heap w)).
  split; [exact Hb|]. split; [exact Hr|].
  rewrite (inv_projectState w HI).
  split; [apply Inv_storeProjects, HI|]. split; [|apply HI].
  apply (run_cases
           (λ w, ProjectLists.children (activeProjectLists (env w))
                 = imap rowOf (objs (heap w)))) with (acts := acts) (w := w0);
    try assumption.
  - intros a v v1 _ HP _ Hh Hc. rewrite Hh. rewrite <- HP. exact (Hc active).
  - intros a v v1 random _ _ _ _ _ Hrows. exact Hrows.
  - destruct (boot_empty w0 Hb) as [-> ->]. reflexivity.
Qed.

(** X6.  The store is append-only: whatever events follow, the projects a
    state holds stay in the store, at their positions and with all their
    fields, and later projects come after them. *)
Theorem store_is_append_only acts1 acts2 :
  ∃ w0 w1 w2 ps1 ps2,
    boot = Some w0 ∧ run acts1 w0 = Some w1 ∧ run acts2 w1 = Some w2 ∧
    storeProjects (projectState (env w1)) w1 = Some ps1 ∧
    storeProjects (projectState (env w2)) w2 = Some ps2 ∧
    ps1 `prefix_of` ps2.
Proof.
  destruct boot_Inv as (w0 & Hb & HI0).
  destruct (run_Inv acts1 w0 HI0) as (w1 & Hr1 & HI1).
  destruct (run_Inv acts2 w1 HI1) as (w2 & Hr2 & HI2).
  exists w0, w1, w2, (objs (heap w1)), (objs (heap w2)).
  split; [exact Hb|]. split; [exact Hr1|]. split; [exact Hr2|].
  rewrite (inv_projectState w1 HI1), (inv_projectState w2 HI2).
  split; [apply Inv_storeProjects, HI1|]. split; [apply Inv_storeProjects, HI2|].
  apply (run_cases (λ w, objs (heap w1) `prefix_of` objs (heap w)))
    with (acts := acts2) (w := w1); try assumption.
  - intros a v v1 _ HP _ Hh _. rewrite Hh. exact HP.
  - intros a v v1 random _ HP _ _ Ho _. rewrite Ho. apply prefix_app_r, HP.
  - reflexivity.
Qed.

(** X7.  The event loop never gets stuck, and every project the store ever
    holds went through the form's three rules: its title and description
    are not blank, its description has more than five code units, and its
    people count is strictly between 0 and 5. *)
Theorem stored_projects_are_validated acts :
  ∃ w0 w ps,
    boot = Some w0 ∧ run acts w0 = Some w ∧
    storeProjects (projectState (env w)) w = Some ps ∧
    Forall validated ps.
Proof.
  destruct boot_Inv as (w0 & Hb & HI0).
  destruct (run_Inv acts w0 HI0) as (w & Hr & HI).
  exists w0, w, (objs (heap w)).
  split; [exact Hb|]. split; [exact Hr|].
  rewrite (inv_projectState w HI).
  split; [apply Inv_storeProjects, HI|].
  apply (run_cases (λ w, Forall validated (objs (heap w))))
    with (acts := acts) (w := w0); try assumption.
  - intros a v v1 _ HP _ Hh _. rewrite Hh. exact HP.
  - intros a v v1 random _ HP _ Hv Ho _. rewrite Ho.
    apply Forall_app. split; [exact HP|]. constructor; [|constructor].
    apply allValid_validated, Hv.
  - destruct (boot_empty w0 Hb) as [-> _]. constructor.
Qed.

(** ** Drag and drop *)

(** X8.  What a drag starts with is what a drop reads: in every reachable
    state, for every rendered row, the event that [dragStartHandler] has
    marked makes [dropHandler] log exactly the identifier of the row's
    project, and change nothing else. *)
Theorem drop_reads_the_dragged_id acts :
  ∃ w0 w,
    boot = Some w0 ∧ run acts w0 = Some w ∧
    ∀ t row dt prevented,
      row ∈ ProjectLists.children (getList t (env w)) →
      ∃ p event',
        objs (heap w) !! ProjectItem.project row = Some p ∧
        dragStartHandler row (DragEvent.mk (Some dt) prevented) (heap w) = Some event' ∧
        dropHandler event' w
          = Some (set_env (console_log [VString (Project.id p)] (env w)) w).
Proof.
  destruct (run_total acts) as (w0 & w & Hb & Hr & HI).
  exists w0, w. split; [exact Hb|]. split; [exact Hr|].
  intros t row dt prevented Hrow.
  pose proof (proj1 (Forall_forall _ _) (inv_rows w HI t) row Hrow) as Hnew.
  unfold newProjectItem in Hnew.
  destruct (objs (heap w) !! ProjectItem.project row) as [p|] eqn:Hp;
    simpl in Hnew; [|discriminate].
  exists p. eexists. split; [reflexivity|].
  unfold dragStartHandler. simpl. rewrite Hp. simpl.
  split; [reflexivity|].
  unfold dropHandler. simpl.
  change (getData "text/plain" (set_effectAllowed "move" (setData "text/plain" (Project.id p) dt)))
    with (getData "text/plain" (setData "text/plain" (Project.id p) dt)).
  rewrite getData_setData. reflexivity.
Qed.

Lemma classList_add_idem c l : classList_add c (classList_add c l) = classList_add c l.
Proof.
  unfold classList_add. destruct (bool_decide (c ∈ l)) eqn:Hin.
  - rewrite Hin. reflexivity.
  - rewrite bool_decide_true; [reflexivity|].
    apply elem_of_app. right. apply list_elem_of_singleton. reflexivity.
Qed.

Lemma classList_add_NoDup c l : NoDup l → NoDup (classList_add c l).
Proof.
  intros Hl. unfold classList_add. destruct (bool_decide (c ∈ l)) eqn:Hin; [exact Hl|].
  apply bool_decide_eq_false in Hin.
  apply NoDup_app. split; [exact Hl|]. split; [|apply NoDup_singleton].
  intros x Hx Hx'. apply list_elem_of_singleton in Hx'. subst x. exact (Hin Hx).
Qed.

Lemma classList_remove_add c l : c ∉ l → classList_remove c (classList_add c l) = l.
Proof.
  intros Hc. unfold classList_add. rewrite bool_decide_false by exact Hc.
  unfold classList_remove. rewrite filter_app, filter_singleton_False by tauto.
  rewrite app_nil_r.
  induction l as [|x l IH]; [reflexivity|].
  apply not_elem_of_cons in Hc as [Hx Hl].
  rewrite filter_cons_True by congruence. f_equal. apply IH, Hl.
Qed.

Lemma classList_remove_id c l : c ∉ l → classList_remove c l = l.
Proof.
  intros Hc. unfold classList_remove.
  induction l as [|x l IH]; [reflexivity|].
  apply not_elem_of_cons in Hc as [Hx Hl].
  rewrite filter_cons_True by congruence. f_equal. apply IH, Hl.
Qed.

Lemma setList_setList t l1 l2 app : setList t l2 (setList t l1 app) = setList t l2 app.
Proof. destruct t; reflexivity. Qed.

Lemma setList_getList t app : setList t (getList t app) app = app.
Proof. destruct t, app; reflexivity. Qed.

(** X9.  Drag-over events reach a list again and again while the pointer
    is over it: a repeated event leaves the state exactly as the first one
    did, and the class list never holds a class twice. *)
Theorem dragOver_is_idempotent t event w :
  dragOverHandler t event (dragOverHandler t event w).2 = dragOverHandler t event w ∧
  (NoDup (ProjectLists.classList (getList t (env w))) →
   NoDup (ProjectLists.classList (getList t (env (dragOverHandler t event w).2)))).
Proof.
  unfold dragOverHandler.
  destruct (DragEvent.dataTransfer event) as [dt|]; [|split; [reflexivity | tauto]].
  destruct (bool_decide (types dt !! 0 = Some "text/plain")); [|split; [reflexivity | tauto]].
  simpl. rewrite getList_setList, decide_True by reflexivity. simpl. split.
  - rewrite classList_add_idem, setList_setList. reflexivity.
  - apply classList_add_NoDup.
Qed.

(** X10.  Leaving undoes entering: on a list that is not marked droppable, a
    drag-over event followed by a drag-leave gives back the state there was,
    whether the event was accepted or not; and after a drag-leave the list is
    never marked. *)
Theorem dragLeave_undoes_dragOver t event w :
  "droppable" ∉ ProjectLists.classList (getList t (env w)) →
  dragLeaveHandler t (dragOverHandler t event w).2 = w ∧
  "droppable" ∉ ProjectLists.classList (getList t (env (dragLeaveHandler t w))).
Proof.
  intros Hc. split.
  - assert (Hid : dragLeaveHandler t w = w).
    { unfold dragLeaveHandler. rewrite (classList_remove_id _ _ Hc).
      destruct w as [h sts inst app]. simpl. f_equal.
      destruct t, app as [ps f [] [] al co]; reflexivity. }
    unfold dragOverHandler.
    destruct (DragEvent.dataTransfer event) as [dt|]; [|exact Hid].
    destruct (bool_decide (types dt !! 0 = Some "text/plain")); [|exact Hid].
    unfold dragLeaveHandler. simpl.
    rewrite getList_setList, decide_True by reflexivity. simpl.
    rewrite (classList_remove_add _ _ Hc), setList_setList.
    destruct w as [h sts inst app]. simpl. f_equal.
    destruct t, app as [ps f [] [] al co]; reflexivity.
  - unfold dragLeaveHandler. simpl. rewrite getList_setList, decide_True by reflexivity.
    simpl. unfold classList_remove. intros Hin.
    apply list_elem_of_filter in Hin as [Hne _]. exact (Hne eq_refl).
Qed.

(** ** The store class, again for any listeners *)

Section StoreExtras.

Context {E : Type}.
Implicit Types (w : World E) (h : Heap) (e : E) (ls : list (Listener E)).

Lemma addListener_states_length this l w w' :
  addListener this l w = Some w' → length (states w') = length (states w).
Proof.
  unfold addListener. destruct (states w !! this); simpl; [|discriminate].
  intros [= <-]. simpl. apply length_insert.
Qed.

Lemma addProject_states this random title description n w w' :
  addProject this random title description n w = Some w' → states w' = states w.
Proof.
  unfold addProject. destruct (states w !! this) as [s|]; simpl; [|discriminate].
  destruct (push _ _ _) as [h2|]; simpl; [|discriminate].
  destruct (notify _ _ _ _) as [[h3 e3]|]; simpl; [|discriminate].
  intros [= <-]. reflexivity.
Qed.

Lemma execOp_instance_Some op w w' r :
  instance w = Some r → execOp op w = Some w' →
  instance w' = Some r ∧ length (states w') = length (states w).
Proof.
  intros Hi Hop. destruct op; simpl in Hop.
  - injection Hop as <-. rewrite (getInstance_again _ _ Hi). simpl. auto.
  - rewrite (addListener_instance _ _ _ _ Hop), (addListener_states_length _ _ _ _ Hop). auto.
  - rewrite (addProject_instance _ _ _ _ _ _ _ Hop), (addProject_states _ _ _ _ _ _ _ Hop).
    auto.
Qed.

Lemma execOps_instance_Some ops w w' r :
  instance w = Some r → execOps ops w = Some w' →
  length (states w') = length (states w).
Proof.
  revert w. induction ops as [|op ops IH]; intros w Hi; simpl.
  - intros [= <-]. reflexivity.
  - destruct (execOp op w) as [w1|] eqn:Hop; simpl; [|discriminate].
    destruct (execOp_instance_Some op w w1 r Hi Hop) as [Hi1 Hlen].
    intros Hr. rewrite (IH w1 Hi1 Hr). exact Hlen.
Qed.

(** X11.  The constructor of [ProjectState] runs at most once: whatever
    operations are applied to the class, once an instance exists no further
    one is created, and from a state without instance at most one is. *)
Theorem at_most_one_instance ops w w' :
  execOps ops w = Some w' →
  (is_Some (instance w) → length (states w') = length (states w)) ∧
  (instance w = None → (length (states w') ≤ S (length (states w)))%nat).
Proof.
  intros Hops. split.
  - intros [r Hi]. exact (execOps_instance_Some ops w w' r Hi Hops).
  - revert w Hops. induction ops as [|op ops IH]; intros w Hops Hnone; simpl in Hops.
    + injection Hops as <-. lia.
    + destruct (execOp op w) as [w1|] eqn:Hop; simpl in Hops; [|discriminate].
      destruct op; simpl in Hop.
      * injection Hop as <-.
        pose proof (getInstance_instance w) as Hi.
        rewrite (execOps_instance_Some ops _ w' _ Hi Hops).
        unfold getInstance. rewrite Hnone. simpl. rewrite length_app. simpl. lia.
      * rewrite <- (addListener_states_length _ _ _ _ Hop).
        apply IH; [exact Hops|].
        rewrite (addListener_instance _ _ _ _ Hop). exact Hnone.
      * rewrite <- (addProject_states _ _ _ _ _ _ _ Hop).
        apply IH; [exact Hops|].
        rewrite (addProject_instance _ _ _ _ _ _ _ Hop). exact Hnone.
Qed.

(** X12.  Registration calls nothing and replays nothing: [addListener]
    leaves the heap and the rest of the state as they are.  The listener is
    first called by the next [addProject], once the new project has been
    pushed and the listeners registered before it have run, and is given the
    whole sequence: the projects added before it was registered, then the
    new one. *)
Theorem late_listener_gets_everything w this s xs l random title description numOfPeople :
  states w !! this = Some s →
  arrs (heap w) !! projects s = Some xs →
  Forall keeps_other_arrays (listeners s) →
  keeps_other_arrays l →
  ∃ w1 w2 h2 h e,
    addListener this l w = Some w1 ∧
    heap w1 = heap w ∧ env w1 = env w ∧
    addProject this random title description numOfPeople w1 = Some w2 ∧
    push (projects s) (length (objs (heap w)))
         (allocProject
            (Project.mk (numberToString random) title description numOfPeople Active)
            (heap w)).2 = Some h2 ∧
    let ys := xs ++ [length (objs (heap w))] in
    notified ys (listeners s) (h2, env w) (h, e) ∧
    (heap w2, env w2) = l (length (arrs h)) {| objs := objs h; arrs := arrs h ++ [ys] |} e.
Proof.
  intros Hs Ha Hframe Hl.
  pose proof (lookup_lt_Some _ _ _ Hs) as Hlt.
  set (s1 := {| listeners := listeners s ++ [l]; projects := projects s |}).
  set (w1 := {| heap := heap w; states := <[this := s1]> (states w);
                instance := instance w; env := env w |}).
  assert (H1 : addListener this l w = Some w1).
  { unfold addListener. rewrite Hs. reflexivity. }
  assert (Hs1 : states w1 !! this = Some s1).
  { simpl. apply list_lookup_insert_eq. exact Hlt. }
  assert (Hframe1 : Forall keeps_other_arrays (listeners s1)).
  { simpl. apply Forall_app. split; [exact Hframe|]. repeat constructor; exact Hl. }
  destruct (addProject_spec this s1 xs random title description numOfPeople w1 Hs1 Ha Hframe1)
    as (w2 & Hadd & _ & _ & _ & Hn).
  simpl in Hn. apply notified_app in Hn as ([h e] & Hn1 & Hn2).
  apply notified_cons_inv in Hn2.
  eexists w1, w2, _, h, e. repeat split; try eassumption.
  - simpl. rewrite (push_Some _ _ _ xs) by exact Ha. reflexivity.
  - simpl.
    destruct (l (length (arrs h)) _ e) as [h' e'].
    apply notified_nil_inv in Hn2. exact Hn2.
Qed.

End StoreExtras.

(** ** Submissions, projects and alerts *)

(** One turn of the event loop and the two counts: a submission adds one to
    the projects or one to the alerts, any other event adds nothing. *)
Lemma step_counts a w w1 :
  Inv w →
  step a w = Some w1 →
  length (objs (heap w1)) + length (alerts (env w1))
  = length (objs (heap w)) + length (alerts (env w)) + submissions [a] ∧
  (Forall (λ m, m = "please provide all required information ") (alerts (env w)) →
   Forall (λ m, m = "please provide all required information ") (alerts (env w1))).
Proof.
  intros HI Hs.
  destruct a as [f s|event random|t i event|t i event|t event|t event|t event];
    simpl in Hs; unfold submissions; simpl.
  - injection Hs as <-. simpl. split; [lia | tauto].
  - destruct (allValid (myForm (env w))) eqn:Hv.
    + destruct (submitHandler_valid event random w HI Hv)
        as (w' & _ & Hsub & _ & Hobjs & Hal).
      rewrite Hsub in Hs. injection Hs as <-. simpl.
      rewrite Hobjs, Hal, length_app. simpl. split; [lia | tauto].
    + rewrite (submitHandler_invalid _ _ _ Hv) in Hs. injection Hs as <-. simpl.
      rewrite length_app. simpl. split; [lia|].
      intros Hall. apply Forall_app. split; [exact Hall | repeat constructor].
  - injection Hs as <-. split; [lia | tauto].
  - destruct (ProjectLists.children _ !! i); injection Hs as <-; simpl;
      (split; [lia | tauto]).
  - injection Hs as <-. unfold dragOverHandler.
    destruct (DragEvent.dataTransfer event) as [dt|]; [|simpl; split; [lia | tauto]].
    destruct (bool_decide _); [|simpl; split; [lia | tauto]].
    destruct t; simpl; (split; [lia | tauto]).
  - injection Hs as <-. unfold dragLeaveHandler.
    destruct t; simpl; (split; [lia | tauto]).
  - injection Hs as <-. unfold dropHandler.
    destruct (DragEvent.dataTransfer event); simpl; (split; [lia | tauto]).
Qed.

Lemma submissions_cons a acts : submissions (a :: acts) = submissions [a] + submissions acts.
Proof.
  unfold submissions. change (a :: acts) with ([a] ++ acts).
  rewrite filter_app, length_app. reflexivity.
Qed.

(** X13.  Every submission is answered exactly once: after any run, the
    number of projects in the store plus the number of alerts raised is the
    number of submissions, and every alert carries the one fixed message.
    No other event adds a project or raises an alert. *)
Theorem every_submission_is_answered acts :
  ∃ w0 w ps,
    boot = Some w0 ∧ run acts w0 = Some w ∧
    storeProjects (projectState (env w)) w = Some ps ∧
    length ps + length (alerts (env w)) = submissions acts ∧
    Forall (λ m, m = "please provide all required information ") (alerts (env w)).
Proof.
  assert (Hgen : ∀ acts w w', Inv w → run acts w = Some w' →
            length (objs (heap w')) + length (alerts (env w'))
            = length (objs (heap w)) + length (alerts (env w)) + submissions acts ∧
            (Forall (λ m, m = "please provide all required information ") (alerts (env w)) →
             Forall (λ m, m = "please provide all required information ") (alerts (env w')))).
  { clear acts. induction acts as [|a acts IH]; intros w w' HI; simpl.
    - intros [= <-]. split; [unfold submissions; simpl; lia | tauto].
    - destruct (step a w) as [w1|] eqn:Hs; simpl; [|discriminate].
      destruct (step_Inv a w HI) as (w1' & Hs' & HI1).
      rewrite Hs in Hs'. injection Hs' as <-.
      intros Hr. destruct (step_counts a w w1 HI Hs) as [Hc1 Hm1].
      destruct (IH w1 w' HI1 Hr) as [Hc Hm].
      rewrite submissions_cons. split; [lia | tauto]. }
  destruct boot_Inv as (w0 & Hb & HI0).
  destruct (run_Inv acts w0 HI0) as (w & Hr & HI).
  exists w0, w, (objs (heap w)).
  split; [exact Hb|]. split; [exact Hr|].
  rewrite (inv_projectState w HI).
  split; [apply Inv_storeProjects, HI|].
  destruct (Hgen acts w0 w HI0 Hr) as [Hc Hm].
  assert (H0 : objs (heap w0) = [] ∧ alerts (env w0) = []).
  { unfold boot in Hb. simpl in Hb. injection Hb as <-. split; reflexivity. }
  destruct H0 as [Ho Hal]. rewrite Ho, Hal in Hc. rewrite Hal in Hm. simpl in Hc.
  split; [exact Hc | apply Hm; constructor].
Qed.

(** ** The listeners the program registers *)

(** X14.  The listener of each of the two lists is of the kind the store's
    specifications ask for: it changes no array that exists when it is
    called, the one it is given included (it only allocates the filtered
    one), and it changes no project. *)
Theorem listListener_respects_the_store t :
  keeps_other_arrays (listListener t) ∧
  keeps_objects (listListener t) ∧
  (∀ snapshot h app xs,
     arrs h !! snapshot = Some xs →
     arrs (listListener t snapshot h app).1 !! snapshot = Some xs).
Proof.
  assert (Harr : ∀ snapshot h app a xs,
            arrs h !! a = Some xs → arrs (listListener t snapshot h app).1 !! a = Some xs).
  { intros snapshot h app a xs Ha. unfold listListener. simpl.
    apply lookup_app_l_Some. exact Ha. }
  split; [|split].
  - intros snapshot h app a xs _ Ha. apply Harr, Ha.
  - intros snapshot h app r p Hr. unfold listListener. simpl. exact Hr.
  - intros snapshot h app xs Hs. apply Harr, Hs.
Qed.
End Program.

(** * Worked instances

    Stand-ins for the two platform functions, defined on the values the
    instances below use, and small listeners of the kinds the specifications
    speak of. *)

Definition sample_numberToString (x : number) : string :=
  if PrimFloat.eqb x 3 then "3" else if PrimFloat.eqb x 0.5 then "0.5" else "NaN".

Definition sample_toNumber (s : string) : number :=
  if String.eqb s "3" then 3%float else if String.eqb s "" then 0%float else nan.

(** A listener that records what it is called with. *)
Definition recorder (k : nat) : Listener (list (nat * option (list Project.t))) :=
  λ snapshot h e, (h, e ++ [(k, contents snapshot h)]).

(** A listener that empties the array it is called with. *)
Definition clearing : Listener unit :=
  λ snapshot h e, ({| objs := objs h; arrs := <[snapshot := []]> (arrs h) |}, e).

(** A listener that counts its calls. *)
Definition counting : Listener nat := λ _ h e, (h, S e).

(** A store with an empty sequence and the given listeners. *)
Definition store_with {E} (ls : list (Listener E)) (e : E) : World E :=
  {| heap := {| objs := []; arrs := [[]] |};
     states := [ {| listeners := ls; projects := 0 |} ];
     instance := Some 0;
     env := e |}.

Definition learn : Project.t :=
  Project.mk "0.5" "Learn Systems Design" "Study the paper" 3%float Active.

Definition fill (description : string) : list Action :=
  [Edit FTitle "Learn Systems Design"; Edit FDescription description; Edit FPeople "3"].

Definition after (acts : list Action) : World App :=
  default world0
    (w0 ← boot sample_numberToString;
     run sample_numberToString sample_toNumber acts w0).

Lemma after_reachable acts :
  is_Some (w0 ← boot sample_numberToString;
           run sample_numberToString sample_toNumber acts w0) →
  reachable sample_numberToString sample_toNumber (after acts).
Proof.
  unfold after, reachable. intros [w Hw]. rewrite Hw. simpl.
  destruct (boot sample_numberToString) as [w0|] eqn:Hb; [|discriminate].
  exists acts, w0. split; [reflexivity | exact Hw].
Qed.

Lemma recorder_keeps_arrays k : keeps_other_arrays (recorder k).
Proof. intros snapshot h e a xs _ Ha. exact Ha. Qed.

Lemma recorder_keeps_objects k : keeps_objects (recorder k).
Proof. intros snapshot h e r p Hr. exact Hr. Qed.

Lemma clearing_keeps_arrays : keeps_other_arrays clearing.
Proof.
  intros snapshot h e a xs Hne Ha. simpl.
  rewrite list_lookup_insert_ne by congruence. exact Ha.
Qed.

Lemma counting_keeps_arrays : keeps_other_arrays counting.
Proof. intros snapshot h e a xs _ Ha. exact Ha. Qed.

Lemma addProject_appends_and_notifies_witness :
  ∃ w', addProject sample_numberToString 0 0.5%float "Learn Systems Design"
          "Study the paper" 3%float (store_with [recorder 1; recorder 2] []) = Some w' ∧
        storeProjects 0 w' = Some [learn] ∧
        env w' = [(1, Some [learn]); (2, Some [learn])].
Proof.
  destruct (addProject_appends_and_notifies sample_numberToString
              (store_with [recorder 1; recorder 2] []) 0 _ []
              0.5%float "Learn Systems Design" "Study the paper" 3%float
              eq_refl eq_refl)
    as (w' & xs & p & h2 & Hadd & Hstore & _).
  - repeat constructor; apply recorder_keeps_arrays.
  - repeat constructor; apply recorder_keeps_objects.
  - exists w'. split; [exact Hadd|]. split; [exact Hstore|].
    vm_compute in Hadd. injection Hadd as <-. reflexivity.
Defined.

Lemma getInstance_singleton_witness :
  (∃ w2, execOps sample_numberToString
           [OpAddProject 0 0.5%float "Learn Systems Design" "Study the paper" 3%float;
            OpGetInstance]
           (getInstance (store_with [] tt)).2 = Some w2 ∧
         getInstance w2 = (0, w2)) ∧
  ∃ w3, addProject sample_numberToString 0 0.5%float "Learn Systems Design"
          "Study the paper" 3%float
          (getInstance (getInstance
             ({| heap := {| objs := []; arrs := [] |}; states := []; instance := None;
                 env := tt |} : World unit)).2).2 = Some w3 ∧
        storeProjects 0 w3 = Some [learn].
Proof.
  split.
  - eexists. split; [reflexivity|].
    apply (proj1 (getInstance_singleton sample_numberToString) (store_with [] tt)
             [OpAddProject 0 0.5%float "Learn Systems Design" "Study the paper" 3%float;
              OpGetInstance]).
    reflexivity.
  - apply (proj2 (getInstance_singleton sample_numberToString)
             ({| heap := {| objs := []; arrs := [] |}; states := []; instance := None;
                 env := tt |} : World unit)
             0.5%float "Learn Systems Design" "Study the paper" 3%float eq_refl).
Defined.

Lemma snapshot_is_a_copy_witness :
  ∃ w1 w2,
    addProject sample_numberToString 0 0.5%float "Learn Systems Design" "Study the paper"
      3%float (store_with [clearing] tt) = Some w1 ∧
    addProject sample_numberToString 0 3%float "Second" "Another one" 3%float w1 = Some w2 ∧
    arrs (heap w2) !! 0 = Some [0; 1].
Proof.
  destruct (snapshot_is_a_copy sample_numberToString (store_with [clearing] tt) 0 _ []
              0.5%float "Learn Systems Design" "Study the paper" 3%float
              3%float "Second" "Another one" 3%float eq_refl eq_refl)
    as (w1 & w2 & h2 & H1 & _ & H2 & Ha2 & _).
  - repeat constructor; apply clearing_keeps_arrays.
  - exists w1, w2. split; [exact H1|]. split; [exact H2|].
    vm_compute in H1. injection H1 as <-. exact Ha2.
Defined.

Lemma listener_registered_twice_witness :
  ∃ w1 w2 w3,
    addListener 0 counting (store_with [] 0) = Some w1 ∧
    addListener 0 counting w1 = Some w2 ∧
    addProject sample_numberToString 0 0.5%float "Learn Systems Design" "Study the paper"
      3%float w2 = Some w3 ∧
    env w3 = 2.
Proof.
  destruct (listener_registered_twice sample_numberToString (store_with [] 0) 0 _ []
              counting 0.5%float "Learn Systems Design" "Study the paper" 3%float
              eq_refl eq_refl)
    as (w1 & w2 & w3 & h2 & h & e & H1 & H2 & _ & H3 & Hn & Hlast).
  - constructor.
  - apply counting_keeps_arrays.
  - exists w1, w2, w3. split; [exact H1|]. split; [exact H2|]. split; [exact H3|].
    apply notified_nil_inv in Hn. injection Hn as -> ->.
    simpl in Hlast. injection Hlast as _ ->. reflexivity.
Defined.

Lemma validate_maxLength_inverted_witness :
  PrimFloat.ltb 5 (length_number "abcdef") = true.
Proof.
  apply (proj1 (proj1 (validate_maxLength_inverted sample_numberToString)
                  "abcdef" None None (Some 5%float) None None eq_refl)
               5%float eq_refl).
Defined.

Lemma rejected_reachable :
  reachable sample_numberToString sample_toNumber (after (fill "abcd")).
Proof. apply after_reachable. vm_compute. eauto. Qed.

Lemma rejected_invalid :
  allValid sample_numberToString sample_toNumber (myForm (env (after (fill "abcd")))) = false.
Proof. vm_compute. reflexivity. Qed.

Lemma accepted_reachable :
  reachable sample_numberToString sample_toNumber (after (fill "Study the paper")).
Proof. apply after_reachable. vm_compute. eauto. Qed.

Lemma accepted_valid :
  allValid sample_numberToString sample_toNumber
    (myForm (env (after (fill "Study the paper")))) = true.
Proof. vm_compute. reflexivity. Qed.

Lemma submit_all_or_nothing_witness :
  submitHandler sample_numberToString sample_toNumber (Event.mk false) 0.5%float
    (after (fill "abcd"))
  = Some (Event.mk true,
          set_env (alert "please provide all required information "
                         (env (after (fill "abcd"))))
                  (after (fill "abcd"))) ∧
  ∃ w', submitHandler sample_numberToString sample_toNumber (Event.mk false) 0.5%float
          (after (fill "Study the paper"))
        = Some (Event.mk true, clearInput w') ∧
        storeProjects 0 (clearInput w') = Some [learn] ∧
        myForm (env (clearInput w')) = ProjectInput.mk "" "" "".
Proof.
  split.
  - exact (proj1 (submit_all_or_nothing sample_numberToString sample_toNumber
                    (Event.mk false) 0.5%float (after (fill "abcd")) rejected_reachable)
                 rejected_invalid).
  - destruct (proj2 (submit_all_or_nothing sample_numberToString sample_toNumber
                       (Event.mk false) 0.5%float (after (fill "Study the paper"))
                       accepted_reachable)
                    accepted_valid)
      as (w' & old & Hold & _ & Hsub & Hstore & Hform & _).
    exists w'. split; [exact Hsub|]. split; [|exact Hform].
    vm_compute in Hold. injection Hold as <-. exact Hstore.
Defined.

Definition twice : list Action :=
  fill "Study the paper" ++ [Submit (Event.mk false) 0.5%float]
  ++ fill "Study the paper" ++ [Submit (Event.mk false) 0.5%float].

Lemma boot_sample : boot sample_numberToString = Some (after []).
Proof. vm_compute. reflexivity. Qed.

Lemma run_twice :
  run sample_numberToString sample_toNumber twice (after []) = Some (after twice).
Proof. vm_compute. reflexivity. Qed.

Lemma store_twice :
  storeProjects (projectState (env (after twice))) (after twice) = Some [learn; learn].
Proof. vm_compute. reflexivity. Qed.

(** C8, as stated, fails: two submissions for which [Math.random()] returns
    the same value leave two projects with one identifier in the store. *)
Lemma ids_can_coincide :
  ¬ (∀ acts w0 w ps,
       boot sample_numberToString = Some w0 →
       run sample_numberToString sample_toNumber acts w0 = Some w →
       storeProjects (projectState (env w)) w = Some ps →
       NoDup (Project.id <$> ps)).
Proof.
  intros H.
  specialize (H twice (after []) (after twice) [learn; learn]
                boot_sample run_twice store_twice).
  apply NoDup_cons in H as [Hin _]. apply Hin. left.
Qed.

(** ** Instances of the further properties *)

Definition dragged : DragEvent.t :=
  DragEvent.mk (Some (DataTransfer.mk [("text/plain", "0.5")] "move")) false.

Definition second : Project.t :=
  Project.mk "3" "Second" "Another one" 3%float Active.

(** A store that holds one project and has no listener yet. *)
Definition store_of_one : World (list (nat * option (list Project.t))) :=
  {| heap := {| objs := [learn]; arrs := [[0]] |};
     states := [ {| listeners := []; projects := 0 |} ];
     instance := Some 0;
     env := [] |}.

Lemma five_is_short :
  (String.length (ProjectInput.descriptionInputElement (myForm (env (after (fill "abcde")))))
   ≤ 5)%nat.
Proof. vm_compute. lia. Qed.

Lemma short_description_is_rejected_witness :
  submitHandler sample_numberToString sample_toNumber (Event.mk false) 0.5%float
    (after (fill "abcde"))
  = Some (Event.mk true,
          set_env (alert "please provide all required information "
                         (env (after (fill "abcde"))))
                  (after (fill "abcde"))).
Proof.
  exact (short_description_is_rejected sample_numberToString sample_toNumber
           (Event.mk false) 0.5%float (after (fill "abcde")) five_is_short).
Defined.

Definition not_a_number : list Action :=
  [Edit FTitle "Learn Systems Design"; Edit FDescription "Study the paper";
   Edit FPeople "many"].

Lemma many_is_nan :
  PrimFloat.is_nan
    (sample_toNumber (ProjectInput.peopleInputElement (myForm (env (after not_a_number)))))
  = true.
Proof. vm_compute. reflexivity. Qed.

Lemma nan_people_is_rejected_witness :
  submitHandler sample_numberToString sample_toNumber (Event.mk false) 0.5%float
    (after not_a_number)
  = Some (Event.mk true,
          set_env (alert "please provide all required information "
                         (env (after not_a_number)))
                  (after not_a_number)).
Proof.
  exact (nan_people_is_rejected sample_numberToString sample_toNumber
           (Event.mk false) 0.5%float (after not_a_number) many_is_nan).
Defined.

Definition once : list Action :=
  fill "Study the paper" ++ [Submit (Event.mk false) 0.5%float].

Lemma submit_once :
  submitHandler sample_numberToString sample_toNumber (Event.mk false) 0.5%float
    (after (fill "Study the paper"))
  = Some (Event.mk true, after once).
Proof. vm_compute. reflexivity. Qed.

Lemma resubmission_is_rejected_witness :
  submitHandler sample_numberToString sample_toNumber (Event.mk false) 3%float (after once)
  = Some (Event.mk true,
          set_env (alert "please provide all required information " (env (after once)))
                  (after once)).
Proof.
  exact (resubmission_is_rejected sample_numberToString sample_toNumber
           (Event.mk false) 0.5%float (after (fill "Study the paper"))
           (Event.mk true) (after once) (Event.mk false) 3%float
           accepted_valid submit_once).
Defined.

Lemma unmarked_at_start :
  "droppable" ∉ ProjectLists.classList (getList active (env (after []))).
Proof. vm_compute. intros H. inversion H. Qed.

Lemma dragLeave_undoes_dragOver_witness :
  dragLeaveHandler active (dragOverHandler active dragged (after [])).2 = after [] ∧
  "droppable" ∉ ProjectLists.classList
                  (getList active (env (dragLeaveHandler active (after [])))).
Proof.
  exact (dragLeave_undoes_dragOver sample_numberToString sample_toNumber
           active dragged (after []) unmarked_at_start).
Defined.

Definition no_instance : World unit :=
  {| heap := {| objs := []; arrs := [] |}; states := []; instance := None; env := tt |}.

Definition three_calls : list (StoreOp (E := unit)) :=
  [OpGetInstance; OpGetInstance;
   OpAddProject 0 0.5%float "Learn Systems Design" "Study the paper" 3%float;
   OpGetInstance].

Lemma three_calls_run :
  ∃ w', execOps sample_numberToString three_calls no_instance = Some w'.
Proof. vm_compute. eauto. Qed.

Lemma at_most_one_instance_witness :
  ∃ w', execOps sample_numberToString three_calls no_instance = Some w' ∧
        (length (states w') ≤ 1)%nat.
Proof.
  destruct three_calls_run as [w' Hw]. exists w'. split; [exact Hw|].
  exact (proj2 (at_most_one_instance sample_numberToString three_calls no_instance w' Hw)
               eq_refl).
Defined.

Lemma late_listener_gets_everything_witness :
  ∃ w1 w2,
    addListener 0 (recorder 7) store_of_one = Some w1 ∧
    env w1 = [] ∧
    addProject sample_numberToString 0 3%float "Second" "Another one" 3%float w1 = Some w2 ∧
    env w2 = [(7, Some [learn; second])].
Proof.
  destruct (late_listener_gets_everything sample_numberToString store_of_one 0 _ [0]
              (recorder 7) 3%float "Second" "Another one" 3%float eq_refl eq_refl)
    as (w1 & w2 & h2 & h & e & H1 & _ & He1 & H2 & Hpush & Hn & Hlast).
  - constructor.
  - apply recorder_keeps_arrays.
  - exists w1, w2. split; [exact H1|]. split; [exact He1|]. split; [exact H2|].
    apply notified_nil_inv in Hn. injection Hn as -> ->.
    vm_compute in Hpush. injection Hpush as <-.
    simpl in Hlast. injection Hlast as _ ->. reflexivity.
Defined.
